(** * FrontendRAFT: the build, test and publish script

    A shallow embedding of [scripts/build-and-publish.py] and the properties
    of its pipeline runner, its heuristic text checks, its source inventory
    and its bundle assembler.

    The script works on the files below the current directory and prints a
    log.  Both are held in an explicit [world]; every function of the script
    is a computation [M A] that reads and updates the world and either
    returns a value or raises a Python exception. *)

From Stdlib Require Import String Ascii List Arith Lia Permutation.
From stdpp Require Import base option list gmap strings fin_maps.

Local Open Scope string_scope.

(* ================================================================== *)
(** * Text *)
(* ================================================================== *)

(** Python's [needle in hay] on [str]: [needle] occurs in [hay] at some
    position.  A text is held as the bytes of its UTF-8 encoding; every
    needle of the script is ASCII, so the test on bytes is the test on code
    points. *)
Fixpoint str_in (needle hay : string) : bool :=
  if String.prefix needle hay then true
  else match hay with
       | EmptyString => false
       | String _ rest => str_in needle rest
       end.

(** [s.startswith(p)] and [s.endswith(p)]. *)
Definition startswith (p s : string) : bool := String.prefix p s.

Fixpoint endswith (p s : string) : bool :=
  if String.eqb p s then true
  else match s with
       | EmptyString => false
       | String _ rest => endswith p rest
       end.

(** ASCII case folding.  The needles looked up in [content.lower()] are
    "script", "secret", "cors", "origin", "wildcard", "route", "middleware"
    and "not found"; no non-ASCII code point lowers to a text that completes
    one of them. *)
Definition lower_ascii (c : ascii) : ascii :=
  let n := nat_of_ascii c in
  if ((65 <=? n) && (n <=? 90))%nat then ascii_of_nat (n + 32) else c.

Fixpoint lower (s : string) : string :=
  match s with
  | EmptyString => EmptyString
  | String c rest => String (lower_ascii c) (lower rest)
  end.

Definition CR : ascii := ascii_of_nat 13.
Definition LF : ascii := ascii_of_nat 10.

(** Reading in text mode ([open(p, 'r')], [newline=None]): "\r\n" and a lone
    "\r" both arrive as "\n". *)
Fixpoint universal_newlines (s : string) : string :=
  match s with
  | EmptyString => EmptyString
  | String c rest =>
      if Ascii.eqb c CR then
        String LF
          match rest with
          | String c' rest' =>
              if Ascii.eqb c' LF then universal_newlines rest'
              else universal_newlines rest
          | EmptyString => EmptyString
          end
      else String c (universal_newlines rest)
  end.

(* ================================================================== *)
(** * The log *)
(* ================================================================== *)

(** [class Colors]; [HEADER_BOLD] is [Colors.HEADER + Colors.BOLD]. *)
Inductive Colors :=
| HEADER | OKBLUE | OKCYAN | OKGREEN | WARNING | FAIL | HEADER_BOLD.

(** The Python exceptions that the modelled calls raise, by class; all are
    subclasses of [Exception], the class that [main] catches. *)
Inductive exn :=
| FileNotFoundError
| IsADirectoryError
| NotADirectoryError
| FileExistsError
| ValueError
| OtherError (what : string).

(** An f-string is kept as its fragments: the literal text and the values
    interpolated into it, each with its format. *)
Inductive piece :=
| Lit (s : string)
| Str (s : string)          (* {s} *)
| Num (n : nat)             (* {n} *)
| NumSep (n : nat)          (* {n:,} *)
| KB2f (n : nat)            (* {n/1024:.2f} *)
| Now                       (* datetime.now().strftime(...) *)
| ExnStr (e : exn).         (* {e}, str(e) *)

Definition fstring := list piece.

Record entry := Entry { color : Colors; message : fstring }.

(* ================================================================== *)
(** * The world and the computations over it *)
(* ================================================================== *)

(** What a path names: a regular file with its content, or a directory. *)
Inductive node :=
| File (content : string)
| Dir.

(** The file system maps the (relative, normalised, POSIX) path strings that
    exist to what they name; [out] is what has been printed so far.  File
    contents are bytes that decode in the platform's encoding, so that a
    text-mode read followed by a text-mode write gives the bytes back, up to
    the newline translation of the read. *)
Record world := World {
  fs : gmap string node;
  out : list entry
}.

Definition set_fs (f : gmap string node) (w : world) : world :=
  World f (out w).

(** The result of a call: a value, or a raised exception. *)
Inductive res (A : Type) :=
| Ok (a : A)
| Raise (e : exn).
Arguments Ok {A} a.
Arguments Raise {A} e.

Definition M (A : Type) : Type := world -> res A * world.

Global Instance M_ret : MRet M := fun A a w => (Ok a, w).

Global Instance M_bind : MBind M := fun A B k m w =>
  match m w with
  | (Ok a, w') => k a w'
  | (Raise e, w') => (Raise e, w')
  end.

(** [try: body  except Exception as e: handler(e)]. *)
Definition try_except {A} (body : M A) (handler : exn -> M A) : M A :=
  fun w =>
    match body w with
    | (Ok a, w') => (Ok a, w')
    | (Raise e, w') => handler e w'
    end.

Definition raise {A} (e : exn) : M A := fun w => (Raise e, w).

(** [not l], for a list or a string of fragments. *)
Definition nil_b {A} (l : list A) : bool :=
  match l with [] => true | _ => false end.

(** ** Logging *)

Definition log (message : fstring) (color : Colors) : M unit :=
  fun w => (Ok tt, World (fs w) (out w ++ [Entry color message])).

Definition log_success (message : fstring) : M unit :=
  log (Lit "✅ " :: message) OKGREEN.

Definition log_error (message : fstring) : M unit :=
  log (Lit "❌ " :: message) FAIL.

Definition log_warning (message : fstring) : M unit :=
  log (Lit "⚠️  " :: message) WARNING.

Definition log_header (message : fstring) : M unit :=
  log (Lit "=====" :: message ++ [Lit "====="])%list HEADER_BOLD.

Definition log_test (name : fstring) (passed : bool) (details : fstring) : M unit :=
  let status := if passed then "✅ PASS" else "❌ FAIL" in
  let color := if passed then OKGREEN else FAIL in
  log (Lit status :: Lit " " :: name) color;;
  if negb (nil_b details) && negb passed
  then log (Lit "    └─ " :: details) FAIL
  else mret tt.

(** ** Loops *)

(** [for x in l: body], where [body] updates the locals [s]. *)
Fixpoint for_in {A S} (l : list A) (body : A -> S -> M S) (s : S) : M S :=
  match l with
  | [] => mret s
  | x :: rest => s' ← body x s; for_in rest body s'
  end.

(** ** Files *)

(** The directories above a path, outermost first: the prefixes that end
    just before a "/".  [parents "dist/core/a.js" = ["dist"; "dist/core"]]. *)
Fixpoint parents_from (pre s : string) : list string :=
  match s with
  | EmptyString => []
  | String c rest =>
      if Ascii.eqb c "/" then
        ((if String.eqb pre "" then [] else [pre])
           ++ parents_from (pre ++ "/") rest)%list
      else parents_from (pre ++ String c "") rest
  end.

Definition parents (p : string) : list string := parents_from "" p.

(** [os.path.exists(p)]. *)
Definition os_path_exists (p : string) : M bool :=
  fun w => (Ok (bool_decide (is_Some (fs w !! p))), w).

(** [os.path.getsize(p)]: the byte length of the file (for a directory,
    the size of its entry, 4096 here). *)
Definition os_path_getsize (p : string) : M nat :=
  fun w =>
    match fs w !! p with
    | Some (File c) => (Ok (String.length c), w)
    | Some Dir => (Ok 4096, w)
    | None => (Raise FileNotFoundError, w)
    end.

(** [with open(p, 'r') as f: f.read()]. *)
Definition read_text (p : string) : M string :=
  fun w =>
    match fs w !! p with
    | Some (File c) => (Ok (universal_newlines c), w)
    | Some Dir => (Raise IsADirectoryError, w)
    | None => (Raise FileNotFoundError, w)
    end.

(** Making a chain of directories, outermost first, with [exist_ok=True]:
    a directory that is there is kept, a missing one is made, and a regular
    file in the way is an error ([FileExistsError] at the end of the chain,
    [NotADirectoryError] before). *)
Fixpoint mkdir_chain (ds : list string) : M unit :=
  match ds with
  | [] => mret tt
  | d :: rest =>
      fun w =>
        match fs w !! d with
        | None => mkdir_chain rest (set_fs (<[d := Dir]> (fs w)) w)
        | Some Dir => mkdir_chain rest w
        | Some (File _) =>
            (Raise (if nil_b rest then FileExistsError
                    else NotADirectoryError), w)
        end
  end.

(** [os.makedirs(d, exist_ok=True)]. *)
Definition makedirs (d : string) : M unit :=
  mkdir_chain (parents d ++ [d])%list.

(** [Path(p).parent.mkdir(parents=True, exist_ok=True)]. *)
Definition mkdir_parent (p : string) : M unit :=
  mkdir_chain (parents p).

(** [with open(p, 'w') as f: f.write(content)]: the directory of [p] has to
    be there, and [p] must not name a directory. *)
Definition write_text (p : string) (content : string) : M unit :=
  fun w =>
    match last (parents p) with
    | Some d =>
        match fs w !! d with
        | Some Dir =>
            match fs w !! p with
            | Some Dir => (Raise IsADirectoryError, w)
            | _ => (Ok tt, set_fs (<[p := File content]> (fs w)) w)
            end
        | Some (File _) => (Raise NotADirectoryError, w)
        | None => (Raise FileNotFoundError, w)
        end
    | None =>
        match fs w !! p with
        | Some Dir => (Raise IsADirectoryError, w)
        | _ => (Ok tt, set_fs (<[p := File content]> (fs w)) w)
        end
    end.

(* ================================================================== *)
(** * Configuration *)
(* ================================================================== *)

Definition REPO_OWNER := "Nexus-Studio-CEO".
Definition REPO_NAME := "FrontendRAFT".
Definition VERSION := "0.1.0".

(** Files to exclude from the CDN bundle (plugins are templates only). *)
Definition EXCLUDED_FROM_CDN : list string :=
  [ "src/plugins/react.js";
    "src/plugins/vue.js" ].

(* ================================================================== *)
(** * Step 2: source validation *)
(* ================================================================== *)

Definition required_files : list string :=
  [ "src/index.js";
    "src/core/FrontendRAFT.js";
    "src/core/CacheLayer.js";
    "src/core/StreamManager.js";
    "src/core/BatchManager.js";
    "src/core/OptimisticEngine.js";
    "src/core/QueryEngine.js";
    "src/core/AuthLayer.js";
    "src/core/Router.js";
    "src/core/StorageLayer.js";
    "src/core/ComputeLayer.js";
    "src/core/P2PLayer.js";
    "src/core/CDNClient.js";
    "src/plugins/react.js";
    "src/plugins/vue.js";
    "src/utils/jwt.js";
    "src/utils/crypto.js";
    "src/utils/validation.js" ].

(** The body of [validate_source_files] for a manifest [required_files];
    the script runs it on the manifest above. *)
Definition validate_source_files_of (required_files : list string) : M bool :=
  log_header [Lit "Step 2: Validating Source Files"];;
  missing ← for_in required_files
              (fun file missing =>
                 b ← os_path_exists file;
                 mret (if negb b then (missing ++ [file])%list else missing))
              [];
  if negb (nil_b missing) then
    log_error [Lit "Missing "; Num (length missing); Lit " files:"];;
    for_in missing (fun file _ => log [Lit "  - "; Str file] FAIL) tt;;
    mret false
  else
    log_success [Lit "All "; Num (length required_files);
                 Lit " source files present"];;
    mret true.

Definition validate_source_files : M bool :=
  validate_source_files_of required_files.

(* ================================================================== *)
(** * What the script takes from outside *)
(* ================================================================== *)

(** The script leans on the operating system, on Python's [re] and on
    [curl] and [git] run as subprocesses.  A [platform] fixes these:
    - [scandir_order] is the order in which the operating system lists
      directory entries ([rglob] yields the matching paths in that order);
    - [findall_secret content] is the number of matches that [re.findall]
      returns on [content] for the pattern of [test_jwt_security] (the
      word secret, an equals sign and a quoted literal, case ignored);
    - the four steps that talk to GitHub and the CDN are arbitrary
      computations: each may log, change files, return either verdict or
      raise. *)
Record platform := Platform {
  scandir_order : list string -> list string;
  findall_secret : string -> nat;
  validate_github_token : M bool;
  check_repo_exists : M bool;
  git_operations : M bool;
  verify_cdn_availability : M bool
}.

(* ================================================================== *)
(** * Steps 3 to 6: security testing *)
(* ================================================================== *)

Definition test_xss_protection : M bool :=
  log_header [Lit "Step 3: Security Testing - XSS Protection"];;
  let validation_file := "src/utils/validation.js" in
  b ← os_path_exists validation_file;
  if negb b then
    log_error [Lit "validation.js not found"];;
    mret false
  else
    content ← read_text validation_file;
    let has_sanitize :=
      str_in "function sanitize" content
      || str_in "export function sanitize" content in
    log_test [Lit "Sanitize function exists"] has_sanitize [];;
    let has_html_escape :=
      str_in "&lt;" content || str_in "replace(/</g" content in
    log_test [Lit "HTML escape implemented"] has_html_escape [];;
    let has_script_block :=
      str_in "&lt;script" content || str_in "script" (lower content) in
    log_test [Lit "Script tag protection"] has_script_block [];;
    mret (has_sanitize && has_html_escape).

Definition test_sql_injection_protection : M bool :=
  log_header [Lit "Step 4: Security Testing - SQL Injection Protection"];;
  let query_engine_file := "src/core/QueryEngine.js" in
  b ← os_path_exists query_engine_file;
  if negb b then
    log_error [Lit "QueryEngine.js not found"];;
    mret false
  else
    content ← read_text query_engine_file;
    let has_where_filter := str_in "_filter" content in
    log_test [Lit "Safe WHERE clause filtering"] has_where_filter [];;
    let has_operator_check :=
      str_in "$eq" content || str_in "operator" content in
    log_test [Lit "Query operator validation"] has_operator_check [];;
    let has_eval := str_in "eval(" content in
    log_test [Lit "No eval() usage"] (negb has_eval) [];;
    mret (has_where_filter && negb has_eval).

Definition test_jwt_security (P : platform) : M bool :=
  log_header [Lit "Step 5: Security Testing - JWT Security"];;
  let jwt_file := "src/utils/jwt.js" in
  b ← os_path_exists jwt_file;
  if negb b then
    log_error [Lit "jwt.js not found"];;
    mret false
  else
    content ← read_text jwt_file;
    let has_verify := str_in "verifyJWT" content in
    log_test [Lit "JWT verification function"] has_verify [];;
    let has_signature_check :=
      str_in "signature" content && str_in "!=" content in
    log_test [Lit "Signature validation"] has_signature_check [];;
    let has_exp_check :=
      str_in "exp" content && str_in "Date.now()" content in
    log_test [Lit "Token expiration check"] has_exp_check [];;
    let has_hardcoded_secret :=
      str_in "secret" (lower content) && str_in "=" content in
    let potential_hardcoded := findall_secret P content in
    log_test [Lit "No hardcoded secrets"] (potential_hardcoded =? 0)%nat
      [Lit "Found "; Num potential_hardcoded;
       Lit " potential hardcoded secrets"];;
    mret (has_verify && has_signature_check && has_exp_check).

Definition test_cors_configuration : M bool :=
  log_header [Lit "Step 6: Security Testing - CORS Configuration"];;
  let router_file := "src/core/Router.js" in
  b ← os_path_exists router_file;
  if negb b then
    log_error [Lit "Router.js not found"];;
    mret false
  else
    content ← read_text router_file;
    let has_cors :=
      str_in "cors" (lower content) || str_in "origin" (lower content) in
    log_test [Lit "CORS handling present"] has_cors [];;
    let has_wildcard_warning :=
      negb (str_in "*" content) || str_in "wildcard" (lower content) in
    log_test [Lit "No unsafe wildcard CORS"] has_wildcard_warning [];;
    mret has_cors.

(* ================================================================== *)
(** * Step 7: route testing *)
(* ================================================================== *)

Definition test_routes : M bool :=
  log_header [Lit "Step 7: Route Testing"];;
  let router_file := "src/core/Router.js" in
  content ← read_text router_file;
  let has_define := str_in "define" content && str_in "route" (lower content) in
  log_test [Lit "Route.define() method"] has_define [];;
  let http_methods := ["GET"; "POST"; "PUT"; "DELETE"; "PATCH"] in
  for_in http_methods
    (fun method _ =>
       let has_method := str_in method content in
       log_test [Lit "HTTP "; Str method; Lit " support"] has_method [])
    tt;;
  let has_params := str_in ":" content && str_in "params" content in
  log_test [Lit "Path parameters (/users/:id)"] has_params [];;
  let has_middleware := str_in "middleware" (lower content) in
  log_test [Lit "Middleware support"] has_middleware [];;
  let has_try_catch := str_in "try" content && str_in "catch" content in
  log_test [Lit "Error handling (try/catch)"] has_try_catch [];;
  let has_404 := str_in "404" content || str_in "not found" (lower content) in
  log_test [Lit "404 Not Found handling"] has_404 [];;
  mret (has_define && has_try_catch && has_404).

(* ================================================================== *)
(** * Step 8: bundle optimization *)
(* ================================================================== *)

(** The paths [Path('src').rglob('*.js')] matches: everything below [src]
    whose name ends in ".js", whether file or directory. *)
Definition is_src_js (p : string) : bool :=
  startswith "src/" p && endswith ".js" p.

Definition src_js_paths (f : gmap string node) : list string :=
  List.filter is_src_js (map fst (map_to_list f)).

(** [list(Path('src').rglob('*.js'))], in the platform's order. *)
Definition rglob_src_js (P : platform) : M (list string) :=
  fun w => (Ok (scandir_order P (src_js_paths (fs w))), w).

Fixpoint str_drop (n : nat) (s : string) : string :=
  match n, s with
  | S n', String _ rest => str_drop n' rest
  | _, _ => s
  end.

(** [src_file.relative_to('src')]. *)
Definition relative_to_src (p : string) : M string :=
  if startswith "src/" p then mret (str_drop 4 p)
  else raise ValueError.

(** [any(excluded in src_path for excluded in EXCLUDED_FROM_CDN)]. *)
Definition is_excluded (src_path : string) : bool :=
  existsb (fun excluded => str_in excluded src_path) EXCLUDED_FROM_CDN.

(** The locals of [create_cdn_bundle] when it returns.  [excluded_paths] is
    not a variable of the script: it collects the paths counted by
    [excluded_count], which the script prints one by one. *)
Record bundle := Bundle {
  cdn_files : list string;
  excluded_count : nat;
  excluded_paths : list string;
  total_size : nat
}.

Definition budget : nat := 100 * 1024.

(** The body of the copy loop for one [src_file]. *)
Definition bundle_one (src_file : string)
    (acc : list string * nat * list string)
  : M (list string * nat * list string) :=
  let '(cdn_files, excluded_count, excluded_paths) := acc in
  let src_path := src_file in
  if is_excluded src_path then
    log_warning [Lit "Excluded: "; Str src_path; Lit " (plugin template)"];;
    mret (cdn_files, excluded_count + 1, (excluded_paths ++ [src_path])%list)
  else
    rel_path ← relative_to_src src_file;
    let dist_path := "dist/" ++ rel_path in
    mkdir_parent dist_path;;
    content ← read_text src_file;
    write_text dist_path content;;
    mret ((cdn_files ++ [dist_path])%list, excluded_count, excluded_paths).

(** [create_cdn_bundle] up to its [return True], returning its locals. *)
Definition create_cdn_bundle_locals (P : platform) : M bundle :=
  log_header [Lit "Step 8: Creating CDN Bundle"];;
  makedirs "dist";;
  src_files ← rglob_src_js P;
  acc ← for_in src_files bundle_one ([], 0, []);
  let '(cdn_files, excluded_count, excluded_paths) := acc in
  log_success [Lit "CDN bundle created: "; Num (length cdn_files);
               Lit " files"];;
  log [Lit "Excluded "; Num excluded_count; Lit " plugin files"] OKBLUE;;
  total_size ← for_in cdn_files
                 (fun f total => n ← os_path_getsize f; mret (total + n))
                 0;
  log [Lit "Total bundle size: "; NumSep total_size; Lit " bytes (";
       KB2f total_size; Lit " KB)"] OKBLUE;;
  (if (budget <? total_size)%nat
   then log_warning [Lit "Bundle exceeds 100KB target"]
   else mret tt);;
  mret (Bundle cdn_files excluded_count excluded_paths total_size).

Definition create_cdn_bundle (P : platform) : M bool :=
  create_cdn_bundle_locals P;;
  mret true.

(* ================================================================== *)
(** * Steps 10 and 11: purge notice and workflow file *)
(* ================================================================== *)

Definition cdn_url : fstring :=
  [Lit "https://cdn.jsdelivr.net/gh/"; Str REPO_OWNER; Lit "/";
   Str REPO_NAME; Lit "@v"; Str VERSION; Lit "/src/index.js"].

Definition purge_old_cdn_versions : M bool :=
  log_header [Lit "Step 10: Purging Old CDN Versions"];;
  log (Lit "New CDN URL: " :: cdn_url) OKBLUE;;
  log [Lit "jsdelivr will auto-update within 12-24 hours"] OKBLUE;;
  log [Lit "Force purge: https://www.jsdelivr.com/tools/purge"] OKBLUE;;
  mret true.

Definition nl : string := String LF "".
Definition dq : string := String (ascii_of_nat 34) "".

(** The text of the GitHub Action. *)
Definition workflow : string :=
  String.concat nl
    [ "name: CDN Auto-Update"; "";
      "on:"; "  push:"; "    branches: [ main ]"; "    tags:";
      "      - 'v*'"; "";
      "jobs:"; "  purge-cdn:"; "    runs-on: ubuntu-latest"; "    steps:";
      "      - name: Purge jsdelivr cache"; "        run: |";
      "          curl -X POST https://purge.jsdelivr.net/gh/${{ github.repository }}@${{ github.ref_name }}/src/index.js";
      "          echo " ++ dq ++ "CDN cache purged for ${{ github.ref_name }}" ++ dq;
      "" ].

Definition setup_cdn_auto_update : M bool :=
  log_header [Lit "Step 11: Setting Up CDN Auto-Update"];;
  makedirs ".github/workflows";;
  write_text ".github/workflows/cdn-update.yml" workflow;;
  log_success [Lit "GitHub Action created: .github/workflows/cdn-update.yml"];;
  log [Lit "CDN will auto-update on every push to main or new tag"] OKBLUE;;
  mret true.

(* ================================================================== *)
(** * Main execution *)
(* ================================================================== *)

(** A step of the pipeline: its name and its function. *)
Definition step : Type := string * M bool.

(** The [steps] list of [main]. *)
Definition steps (P : platform) : list step :=
  [ ("GitHub Token Validation", validate_github_token P);
    ("Source File Validation", validate_source_files);
    ("XSS Protection Test", test_xss_protection);
    ("SQL Injection Test", test_sql_injection_protection);
    ("JWT Security Test", test_jwt_security P);
    ("CORS Configuration Test", test_cors_configuration);
    ("Route Testing", test_routes);
    ("CDN Bundle Creation", create_cdn_bundle P);
    ("Repository Check", check_repo_exists P);
    ("Purge Old Versions", purge_old_cdn_versions);
    ("CDN Auto-Update Setup", setup_cdn_auto_update);
    ("Git Operations", git_operations P);
    ("CDN Verification", verify_cdn_availability P) ].

(** One turn of the [for step_name, step_func in steps] loop.  It yields the
    [results] list and, when the turn ran a [return], the value returned. *)
Definition run_step (st : step) (results : list (string * bool))
  : M (list (string * bool) * option bool) :=
  let '(step_name, step_func) := st in
  try_except
    (result ← step_func;
     let results := (results ++ [(step_name, result)])%list in
     if negb result then
       log_error [Lit "❌ Step failed: "; Str step_name];;
       log [Lit "Build aborted due to failure."] OKBLUE;;
       mret (results, Some false)
     else mret (results, None))
    (fun e =>
       log_error [Lit "❌ Exception in "; Str step_name; Lit ": "; ExnStr e];;
       mret ((results ++ [(step_name, false)])%list, Some false)).

(** The whole loop: a [return] inside a turn ends it. *)
Fixpoint run_steps (steps : list step) (results : list (string * bool))
  : M (list (string * bool) * option bool) :=
  match steps with
  | [] => mret (results, None)
  | st :: rest =>
      r ← run_step st results;
      match r.2 with
      | Some b => mret r
      | None => run_steps rest r.1
      end
  end.

(** [main] for a list of steps, returning [results] next to its value. *)
Definition main_of (steps : list step) : M (list (string * bool) * bool) :=
  log_header [Lit "FrontendRAFT Complete Build & Publish"];;
  log [Lit "Version: "; Str VERSION] OKBLUE;;
  log [Lit "Date: "; Now] OKBLUE;;
  log [Lit "Based on CSOP v0.2.0"] OKBLUE;;
  r ← run_steps steps [];
  let results := r.1 in
  match r.2 with
  | Some b => mret (results, b)
  | None =>
      log_header [Lit "Build Summary"];;
      let passed := length (List.filter snd results) in
      let total := length results in
      log [Lit "Results: "; Num passed; Lit "/"; Num total;
           Lit " steps passed"] OKBLUE;;
      for_in results
        (fun '(step_name, result) _ =>
           let status := if (result : bool) then "✅" else "❌" in
           log [Lit status; Lit " "; Str step_name] OKBLUE)
        tt;;
      if (passed =? total)%nat then
        log_header [Lit "Build Complete - SUCCESS!"];;
        log [Lit "FrontendRAFT v0.1.0 published successfully!"] OKBLUE;;
        log [Lit "CDN URL:"] OKBLUE;;
        log cdn_url OKBLUE;;
        log [Lit "GitHub: https://github.com/"; Str REPO_OWNER; Lit "/";
             Str REPO_NAME] OKBLUE;;
        log [Lit "Next steps:"] OKBLUE;;
        log [Lit "  1. Wait 5-10 minutes for CDN to update"] OKBLUE;;
        log [Lit "  2. Test examples in browser"] OKBLUE;;
        log [Lit "  3. Create GitHub Release with release notes"] OKBLUE;;
        mret (results, true)
      else
        log_header [Lit "Build Failed"];;
        log [Num (total - passed);
             Lit " step(s) failed. Please fix errors and retry."] OKBLUE;;
        mret (results, false)
  end.

Definition main (P : platform) : M bool :=
  r ← main_of (steps P);
  mret r.2.

(** [success = main(); sys.exit(0 if success else 1)]: the exit code. *)
Definition script (P : platform) : M nat :=
  success ← main P;
  mret (if (success : bool) then 0 else 1)%nat.

(* ================================================================== *)
(** * A platform to run the script on *)
(* ================================================================== *)

(** The hardcoded-secret pattern on ASCII text: the word secret in any
    case, white space, an equals sign, white space, a quote, one or more
    characters that are not quotes, a quote.  Matches are counted from left
    to right without overlap, as [re.findall] does. *)
Definition is_space (c : ascii) : bool :=
  let n := nat_of_ascii c in
  (((9 <=? n) && (n <=? 13)) || ((28 <=? n) && (n <=? 32)))%nat.

Definition is_quote (c : ascii) : bool :=
  let n := nat_of_ascii c in ((n =? 34) || (n =? 39))%nat.

Fixpoint skip_spaces (s : string) : string :=
  match s with
  | String c rest => if is_space c then skip_spaces rest else s
  | EmptyString => EmptyString
  end.

(** The quoted literal after its opening quote: what follows the closing
    quote, when there is one after at least one other character. *)
Fixpoint literal_rest (seen : bool) (s : string) : option string :=
  match s with
  | EmptyString => None
  | String c rest =>
      if is_quote c then (if seen then Some rest else None)
      else literal_rest true rest
  end.

(** A match of the pattern at the start of [s]: what follows it. *)
Definition match_secret (s : string) : option string :=
  if String.prefix "secret" (lower s) then
    match skip_spaces (str_drop 6 s) with
    | String c after_eq =>
        if Ascii.eqb c "=" then
          match skip_spaces after_eq with
          | String q body =>
              if is_quote q then literal_rest false body else None
          | EmptyString => None
          end
        else None
    | EmptyString => None
    end
  else None.

(** The number of matches in [s]; [skip] characters still belong to the
    match found last. *)
Fixpoint count_secret (skip : nat) (s : string) : nat :=
  match s with
  | EmptyString => 0
  | String _ rest =>
      match skip with
      | S k => count_secret k rest
      | O =>
          match match_secret s with
          | Some after =>
              S (count_secret
                   (String.length s - String.length after - 1) rest)
          | None => count_secret 0 rest
          end
      end
  end.

Definition always (b : bool) : M bool := mret b.

(** Directory entries come in the order of the tree's key list, the
    hardcoded-secret pattern is the ASCII one, and GitHub and the CDN
    answer well without a trace. *)
Definition quiet_platform : platform :=
  Platform (fun l => l) (count_secret 0)
    (always true) (always true) (always true) (always true).

(** The same with directory entries in the opposite order. *)
Definition reversed_platform : platform :=
  Platform (@rev string) (count_secret 0)
    (always true) (always true) (always true) (always true).

Definition tree (l : list (string * node)) : world :=
  World (list_to_map l) [].

(* ================================================================== *)
(** * Vocabulary of the properties *)
(* ================================================================== *)

(** What the properties below are stated with: the paths a manifest
    misses, the outcome of a step, the executed prefix of a step list, the
    tree a copy leaves, and the like.  None of it is code of the script;
    the lemmas that follow relate each of them to the code. *)

(** [needle] occurs in [hay]. *)
Definition occurs_in (needle hay : string) : Prop :=
  exists before after, hay = before ++ needle ++ after.

Local Open Scope list_scope.

(** The world whose file [p] holds [c]. *)
Definition with_file (p c : string) (f : gmap string node) (o : list entry)
  : world :=
  World (<[p := File c]> f) o.

(** The log line of the hardcoded-secret sub-check for [n] matches. *)
Definition secret_line (n : nat) : entry :=
  Entry (if (n =? 0)%nat then OKGREEN else FAIL)
    [Lit (if (n =? 0)%nat then "✅ PASS" else "❌ FAIL"); Lit " ";
     Lit "No hardcoded secrets"].

(** A query artifact with filtered query construction, without operator
    validation and without [eval(]. *)
Definition query_without_operators : string := "items._filter(where)".

(** The paths of a manifest that do not exist, in manifest order. *)
Definition missing_of (f : gmap string node) (manifest : list string)
  : list string :=
  filter (fun p => ~ is_Some (f !! p)) manifest.

(** The lines printed for a list of missing paths. *)
Definition missing_report (missing : list string) : list entry :=
  Entry FAIL [Lit "❌ "; Lit "Missing "; Num (length missing); Lit " files:"]
  :: map (fun file => Entry FAIL [Lit "  - "; Str file]) missing.

(** The uniform outcome of running a step in a world: the verdict it
    returns, or failure when it raises. *)
Definition outcome (st : step) (w : world) : bool :=
  match st.2 w with
  | (Ok b, _) => b
  | (Raise _, _) => false
  end.

(** The world a step function leaves behind. *)
Definition after_step (st : step) (w : world) : world := (st.2 w).2.

(** Running every step of a list, one after the other from [w], whatever
    the outcomes: the name and outcome of each. *)
Fixpoint outcomes (l : list step) (w : world) : list (string * bool) :=
  match l with
  | [] => []
  | st :: rest => (st.1, outcome st w) :: outcomes rest (after_step st w)
  end.

(** The steps up to and including the first one whose outcome is not Pass
    (all of them when there is none). *)
Fixpoint executed (l : list step) (w : world) : list step :=
  match l with
  | [] => []
  | st :: rest =>
      if outcome st w then st :: executed rest (after_step st w) else [st]
  end.

(** Every step of the list returns True when they are run in order from
    [w]; [passing l w] is then the world they leave. *)
Fixpoint passing (l : list step) (w : world) : option world :=
  match l with
  | [] => Some w
  | st :: rest =>
      match st.2 w with
      | (Ok true, w') => passing rest w'
      | _ => None
      end
  end.

Definition passed_pairs (l : list step) : list (string * bool) :=
  map (fun st => (st.1, true)) l.

(** The lines the runner prints when a step does not pass. *)
Definition failure_lines (st : step) (w : world) : list entry :=
  match st.2 w with
  | (Ok _, _) =>
      [Entry FAIL [Lit "❌ "; Lit "❌ Step failed: "; Str st.1];
       Entry OKBLUE [Lit "Build aborted due to failure."]]
  | (Raise e, _) =>
      [Entry FAIL
         [Lit "❌ "; Lit "❌ Exception in "; Str st.1; Lit ": "; ExnStr e]]
  end.

Definition add_lines (es : list entry) (w : world) : world :=
  World (fs w) (out w ++ es).

(** The world in which the first step runs: the banner has been printed. *)
Definition banner (w : world) : world :=
  add_lines
    [Entry HEADER_BOLD
       [Lit "====="; Lit "FrontendRAFT Complete Build & Publish";
        Lit "====="];
     Entry OKBLUE [Lit "Version: "; Str VERSION];
     Entry OKBLUE [Lit "Date: "; Now];
     Entry OKBLUE [Lit "Based on CSOP v0.2.0"]]
    w.

(** Where a source path is copied to: the same relative path under
    [dist]. *)
Definition dist_of (p : string) : string := "dist/" +:+ str_drop 4 p.

(** The first character of a path. *)
Definition first_char (s : string) : option ascii :=
  match s with
  | EmptyString => None
  | String c _ => Some c
  end.

Definition is_file (f : gmap string node) (p : string) : bool :=
  match f !! p with Some (File _) => true | _ => false end.

Definition is_dir (f : gmap string node) (p : string) : bool :=
  match f !! p with Some Dir => true | _ => false end.

(** The text [read_text] returns for a regular file. *)
Definition text_of (f : gmap string node) (p : string) : string :=
  match f !! p with Some (File c) => universal_newlines c | _ => "" end.

(** The tree after [mkdir] with [exist_ok] went well for each of [ds]. *)
Definition add_dir (d : string) (f : gmap string node) : gmap string node :=
  match f !! d with None => <[d := Dir]> f | Some _ => f end.

Definition add_dirs (ds : list string) (f : gmap string node)
  : gmap string node :=
  fold_left (fun g d => add_dir d g) ds f.

(** None of [ds] is a regular file. *)
Definition no_file (ds : list string) (f : gmap string node) : bool :=
  forallb (fun d => negb (is_file f d)) ds.

(** One turn of the copy loop on a path that is not excluded goes well
    exactly when [copy_ok] holds, and then leaves the tree [copy_fs]. *)
Definition copy_ok (p : string) (f : gmap string node) : bool :=
  startswith "src/" p
  && no_file (parents (dist_of p)) f
  && is_file f p
  && negb (is_dir f (dist_of p)).

Definition copy_fs (p : string) (f : gmap string node) : gmap string node :=
  <[dist_of p := File (text_of f p)]> (add_dirs (parents (dist_of p)) f).

(** The paths of an enumeration that are copied, and those left out. *)
Definition included (l : list string) : list string :=
  List.filter (fun p => negb (is_excluded p)) l.

Definition excluded (l : list string) : list string :=
  List.filter is_excluded l.

Definition warnings (l : list string) : list entry :=
  map (fun p =>
         Entry WARNING
           [Lit "⚠️  "; Lit "Excluded: "; Str p; Lit " (plugin template)"])
      (excluded l).

(** The tree the loop leaves, when every turn goes well. *)
Fixpoint copy_all (l : list string) (f : gmap string node)
  : option (gmap string node) :=
  match l with
  | [] => Some f
  | p :: rest =>
      if is_excluded p then copy_all rest f
      else if copy_ok p f then copy_all rest (copy_fs p f)
      else None
  end.

(** The byte size of a regular file of the tree. *)
Definition file_size (f : gmap string node) (p : string) : nat :=
  match f !! p with Some (File c) => String.length c | _ => 0 end.

(** What the step prints for an enumeration [l] and a bundle [b]. *)
Definition bundle_lines (l : list string) (b : bundle) : list entry :=
  Entry HEADER_BOLD
    [Lit "====="; Lit "Step 8: Creating CDN Bundle"; Lit "====="]
  :: warnings l
  ++ [Entry OKGREEN
        [Lit "✅ "; Lit "CDN bundle created: "; Num (length (cdn_files b));
         Lit " files"];
      Entry OKBLUE
        [Lit "Excluded "; Num (excluded_count b); Lit " plugin files"];
      Entry OKBLUE
        [Lit "Total bundle size: "; NumSep (total_size b); Lit " bytes (";
         KB2f (total_size b); Lit " KB)"]]
  ++ (if (budget <? total_size b)%nat
      then [Entry WARNING [Lit "⚠️  "; Lit "Bundle exceeds 100KB target"]]
      else []).

(** The tree in which the enumeration takes place: [dist] is there. *)
Definition with_dist (f : gmap string node) : gmap string node :=
  add_dirs ["dist"] f.

(** The enumeration the step works through. *)
Definition src_files (P : platform) (f : gmap string node) : list string :=
  scandir_order P (src_js_paths (with_dist f)).

(** The bundle and the tree of a step that goes well. *)
Definition bundle_of (P : platform) (f : gmap string node)
  : option (bundle * gmap string node) :=
  if is_file f "dist" then None
  else
    let l := src_files P f in
    match copy_all l (with_dist f) with
    | Some f' =>
        let cf := map dist_of (included l) in
        Some (Bundle cf (length (excluded l)) (excluded l)
                (sum_list (map (file_size f') cf)),
              f')
    | None => None
    end.

(** The operating system lists every entry once, in some order. *)
Definition lists_each_once (P : platform) : Prop :=
  forall l, scandir_order P l ≡ₚ l.

(** A content without carriage returns is read as it is. *)
Fixpoint no_cr (s : string) : bool :=
  match s with
  | EmptyString => true
  | String c rest => negb (Ascii.eqb c CR) && no_cr rest
  end.

(** The warning printed for a bundle over budget. *)
Definition budget_warning : entry :=
  Entry WARNING [Lit "⚠️  "; Lit "Bundle exceeds 100KB target"].

(** A computation that leaves the tree as it found it. *)
Definition keeps_fs {A} (m : M A) : Prop := forall w, fs (m w).2 = fs w.

(* ================================================================== *)
(** * Sample inputs *)
(* ================================================================== *)

(** A source tree of five scripts, two of them plugin templates, and a
    read-me. *)
Definition small_tree : world :=
  tree [("src", Dir); ("src/core", Dir); ("src/plugins", Dir);
        ("src/utils", Dir);
        ("src/index.js", File "import './core/Router.js'");
        ("src/core/Router.js", File "define route");
        ("src/utils/jwt.js", File "verifyJWT");
        ("src/plugins/react.js", File "react");
        ("src/plugins/vue.js", File "vue");
        ("src/README.md", File "docs")].

(** A source tree that holds every required file, with the texts the
    checks look for. *)
Definition release_tree : world :=
  tree [("src", Dir); ("src/core", Dir); ("src/plugins", Dir);
        ("src/utils", Dir);
        ("src/index.js", File "export * from './core/FrontendRAFT.js'");
        ("src/core/FrontendRAFT.js", File "export class FrontendRAFT {}");
        ("src/core/CacheLayer.js", File "export class CacheLayer {}");
        ("src/core/StreamManager.js", File "export class StreamManager {}");
        ("src/core/BatchManager.js", File "export class BatchManager {}");
        ("src/core/OptimisticEngine.js", File "export class Optimistic {}");
        ("src/core/QueryEngine.js",
         File "_filter(rows, where) { if (operator === '$eq') return rows }");
        ("src/core/AuthLayer.js", File "export class AuthLayer {}");
        ("src/core/Router.js",
         File "define(route) { try { cors(origin) } catch (e) { return 404 } }");
        ("src/core/StorageLayer.js", File "export class StorageLayer {}");
        ("src/core/ComputeLayer.js", File "export class ComputeLayer {}");
        ("src/core/P2PLayer.js", File "export class P2PLayer {}");
        ("src/core/CDNClient.js", File "export class CDNClient {}");
        ("src/plugins/react.js", File "export function useRaft() {}");
        ("src/plugins/vue.js", File "export function raftPlugin() {}");
        ("src/utils/jwt.js",
         File "function verifyJWT(t) { return sig !== signature || t.exp < Date.now() }");
        ("src/utils/crypto.js", File "export function hash() {}");
        ("src/utils/validation.js",
         File "export function sanitize(s) { return s.replace(/</g, '&lt;') }")].

(** A tree whose [dist/index.js] is a directory. *)
Definition blocked_tree : world :=
  tree [("src", Dir); ("src/index.js", File "x");
        ("dist", Dir); ("dist/index.js", Dir)].

(** The regular files below [src], whatever their name. *)
Definition files_below_src (f : gmap string node) : list string :=
  List.filter (fun p => startswith "src/" p && is_file f p)
    (map fst (map_to_list f)).

(** Three steps: the first passes, the second raises, the third would
    print a line. *)
Definition step_a : step := ("A", always true).
Definition step_b : step := ("B", raise (OtherError "boom") : M bool).
Definition step_c : step :=
  ("C", log [Lit "C was run"] OKBLUE;; mret true).

(** A step that returns False. *)
Definition step_f : step := ("B", always false).

(* ================================================================== *)
(** * Steps 1, 9, 12 and 13: GitHub and the CDN *)
(* ================================================================== *)

(** These steps run [curl] and [git] and read JSON.  A [shell] fixes what
    lies outside the script:
    - [GITHUB_TOKEN] is [os.environ.get('GITHUB_TOKEN')];
    - [subprocess_run cmd] is [subprocess.run(cmd, ...)] without [check]:
      the return code and the captured output, or an exception
      ([FileNotFoundError] for a missing program, a timeout, ...); it may
      change the tree, as [git] does;
    - [json_in key text] is [key in json.loads(text)], and
      [json_index key text] is [json.loads(text)[key]] as an f-string
      prints it; both may raise. *)
Record shell := Shell {
  GITHUB_TOKEN : option string;
  subprocess_run : list string -> M (nat * string);
  json_in : string -> string -> res bool;
  json_index : string -> string -> res string
}.

Module Publish.

(** A value computed without touching the world. *)
Definition lift {A} (r : res A) : M A := fun w => (r, w).

(** [not GITHUB_TOKEN]: unset, or empty. *)
Definition falsy (t : option string) : bool :=
  match t with
  | None => true
  | Some EmptyString => true
  | Some _ => false
  end.

(** [f"{GITHUB_TOKEN}"]. *)
Definition token_text (t : option string) : string :=
  match t with
  | Some s => s
  | None => "None"
  end.

(** [subprocess.CalledProcessError]. *)
Definition CalledProcessError : exn := OtherError "CalledProcessError".

Definition is_called_process_error (e : exn) : bool :=
  match e with
  | OtherError what => String.eqb what "CalledProcessError"
  | _ => false
  end.

(** [subprocess.run(cmd, check=True)]. *)
Definition run_checked (S : shell) (cmd : list string) : M unit :=
  result ← subprocess_run S cmd;
  if (result.1 =? 0)%nat then mret tt else raise CalledProcessError.

(** [try: body  except subprocess.CalledProcessError as e: handler(e)]. *)
Definition try_except_called {A} (body : M A) (handler : exn -> M A) : M A :=
  fun w =>
    match body w with
    | (Ok a, w') => (Ok a, w')
    | (Raise e, w') =>
        if is_called_process_error e then handler e w' else (Raise e, w')
    end.

Definition validate_github_token (S : shell) : M bool :=
  log_header [Lit "Step 1: Validating GitHub Token"];;
  if falsy (GITHUB_TOKEN S) then
    log_error [Lit "GITHUB_TOKEN environment variable not set!"];;
    log [Lit "Set it with: export GITHUB_TOKEN='your_token_here'"] OKBLUE;;
    log [Lit "Get token from: https://github.com/settings/tokens"] OKBLUE;;
    mret false
  else
    log [Lit "Token found (length: ";
         Num (String.length (token_text (GITHUB_TOKEN S))); Lit ")"] OKBLUE;;
    try_except
      (result ← subprocess_run S
                  ["curl"; "-s"; "-H";
                   "Authorization: token " +:+ token_text (GITHUB_TOKEN S);
                   "https://api.github.com/user"];
       returned ←
         (if (result.1 =? 0)%nat then
            has_login ← lift (json_in S "login" result.2);
            if (has_login : bool) then
              login ← lift (json_index S "login" result.2);
              log_success [Lit "Token valid for user: "; Str login];;
              mret true
            else mret false
          else mret false);
       if (returned : bool) then mret true
       else
         log_error [Lit "Token is invalid or expired"];;
         mret false)
      (fun e =>
         log_error [Lit "Failed to validate token: "; ExnStr e];;
         mret false).

Definition check_repo_exists (S : shell) : M bool :=
  log_header [Lit "Step 9: Checking GitHub Repository"];;
  try_except
    (result ← subprocess_run S
                ["curl"; "-s"; "-H";
                 "Authorization: token " +:+ token_text (GITHUB_TOKEN S);
                 "https://api.github.com/repos/" +:+ REPO_OWNER +:+ "/"
                   +:+ REPO_NAME];
     returned ←
       (if (result.1 =? 0)%nat then
          has_id ← lift (json_in S "id" result.2);
          if (has_id : bool) then
            full_name ← lift (json_index S "full_name" result.2);
            log_success [Lit "Repository found: "; Str full_name];;
            mret true
          else mret false
        else mret false);
     if (returned : bool) then mret true
     else
       log_warning [Lit "Repository "; Str REPO_OWNER; Lit "/"; Str REPO_NAME;
                    Lit " not found"];;
       log [Lit "You'll need to create it first on GitHub"] OKBLUE;;
       mret false)
    (fun e =>
       log_error [Lit "Failed to check repo: "; ExnStr e];;
       mret false).

Definition commit_message : string := "Release FrontendRAFT v" +:+ VERSION.

Definition remote_url (S : shell) : string :=
  "https://" +:+ token_text (GITHUB_TOKEN S) +:+ "@github.com/"
    +:+ REPO_OWNER +:+ "/" +:+ REPO_NAME +:+ ".git".

Definition git_operations (S : shell) : M bool :=
  log_header [Lit "Step 12: Git Operations"];;
  try_except_called
    (has_git ← os_path_exists ".git";
     (if negb has_git then
        log [Lit "Initializing git repository..."] OKBLUE;;
        run_checked S ["git"; "init"]
      else mret tt);;
     log [Lit "Adding files to git..."] OKBLUE;;
     run_checked S ["git"; "add"; "."];;
     log [Lit "Committing: "; Str commit_message] OKBLUE;;
     run_checked S ["git"; "commit"; "-m"; commit_message];;
     log [Lit "Creating tag: v"; Str VERSION] OKBLUE;;
     run_checked S ["git"; "tag"; "-f"; "v" +:+ VERSION];;
     result ← subprocess_run S ["git"; "remote"; "get-url"; "origin"];
     (if negb (result.1 =? 0)%nat then
        log [Lit "Adding remote origin..."] OKBLUE;;
        run_checked S ["git"; "remote"; "add"; "origin"; remote_url S]
      else mret tt);;
     log [Lit "Pushing to GitHub..."] OKBLUE;;
     run_checked S ["git"; "push"; "-u"; "origin"; "main"; "--force"];;
     run_checked S ["git"; "push"; "origin"; "v" +:+ VERSION; "--force"];;
     log_success [Lit "Pushed to GitHub successfully"];;
     mret true)
    (fun e =>
       log_error [Lit "Git operation failed: "; ExnStr e];;
       mret false).

Definition cdn_url_text : string :=
  "https://cdn.jsdelivr.net/gh/" +:+ REPO_OWNER +:+ "/" +:+ REPO_NAME
    +:+ "@v" +:+ VERSION +:+ "/src/index.js".

Definition verify_cdn_availability (S : shell) : M bool :=
  log_header [Lit "Step 13: Verifying CDN Availability"];;
  log [Lit "Testing URL: "; Str cdn_url_text] OKBLUE;;
  log_warning [Lit "Note: May take 5-10 minutes for CDN to update"];;
  try_except
    (result ← subprocess_run S ["curl"; "-s"; "-I"; cdn_url_text];
     if str_in "200 OK" result.2 || str_in "200" result.2 then
       log_success [Lit "CDN URL is accessible!"];;
       mret true
     else
       log_warning [Lit "CDN not yet available (may take a few minutes)"];;
       mret true)
    (fun e =>
       log_warning [Lit "Could not verify CDN: "; ExnStr e];;
       mret true).

(** The platform whose four outside steps are the script's own, run on a
    shell. *)
Definition platform_of (order : list string -> list string)
    (findall : string -> nat) (S : shell) : platform :=
  Platform order findall
    (validate_github_token S) (check_repo_exists S)
    (git_operations S) (verify_cdn_availability S).

End Publish.

(* ================================================================== *)
(** * Vocabulary of the further properties *)
(* ================================================================== *)

(** The world in which [p] does not exist. *)
Definition without_file (p : string) (f : gmap string node) (o : list entry)
  : world :=
  World (delete p f) o.

(** [q] is the directory [root] or lies below it. *)
Definition under (root q : string) : Prop :=
  q = root \/ startswith (root +:+ "/") q = true.

(** A computation that changes the tree only at paths in [R], whether it
    returns or raises. *)
Definition changes_only (R : string -> Prop) {A} (m : M A) : Prop :=
  forall w q, ~ R q -> fs (m w).2 !! q = fs w !! q.

(** Every entry of [f] is still there in [f'], a directory as a directory
    and a regular file as a regular file. *)
Definition keeps_entries (f f' : gmap string node) : Prop :=
  forall q,
    match f !! q with
    | Some Dir => f' !! q = Some Dir
    | Some (File _) => is_file f' q = true
    | None => True
    end.

(** A computation that removes no entry and changes the kind of none,
    whether it returns or raises. *)
Definition never_removes {A} (m : M A) : Prop :=
  forall w, keeps_entries (fs w) (fs (m w).2).

(** [small_tree] with a bundle directory left by an earlier build, which
    holds a copy of a plugin template. *)
Definition stale_tree : world :=
  World (<["dist" := Dir]>
           (<["dist/plugins" := Dir]>
              (<["dist/plugins/react.js" := File "old"]> (fs small_tree))))
        [].

(** The summary line of a step that passed. *)
Definition tick_line (st : step) : entry :=
  Entry OKBLUE [Lit "✅"; Lit " "; Str st.1].

(** The command of step 1 and the world in which it runs: the title and
    the token line have been printed. *)
Definition curl_user (S : shell) : list string :=
  ["curl"; "-s"; "-H";
   "Authorization: token " +:+ Publish.token_text (GITHUB_TOKEN S);
   "https://api.github.com/user"].

Definition asking_user (S : shell) (w : world) : world :=
  add_lines
    [Entry HEADER_BOLD
       [Lit "====="; Lit "Step 1: Validating GitHub Token"; Lit "====="];
     Entry OKBLUE
       [Lit "Token found (length: ";
        Num (String.length (Publish.token_text (GITHUB_TOKEN S))); Lit ")"]]
    w.

(** The command of step 9 and the world in which it runs. *)
Definition curl_repo (S : shell) : list string :=
  ["curl"; "-s"; "-H";
   "Authorization: token " +:+ Publish.token_text (GITHUB_TOKEN S);
   "https://api.github.com/repos/" +:+ REPO_OWNER +:+ "/" +:+ REPO_NAME].

Definition asking_repo (w : world) : world :=
  add_lines
    [Entry HEADER_BOLD
       [Lit "====="; Lit "Step 9: Checking GitHub Repository"; Lit "====="]]
    w.

(** A command answered with return code 0, and a JSON object in which
    [key] is present and [shown] can be read. *)
Definition answered (S : shell) (cmd : list string) (w : world)
    (key shown : string) : Prop :=
  exists text w1 value,
    subprocess_run S cmd w = (Ok (0, text), w1)
    /\ json_in S key text = Ok true
    /\ json_index S shown text = Ok value.

(** A shell that answers each command [cmd] with the return code [rc cmd]
    and echoes it on the terminal, in a colour the script does not use;
    it raises nothing and leaves the tree alone. *)
Definition echo_line (cmd : list string) : entry :=
  Entry OKCYAN (map Str cmd).

Definition recording (token : option string) (rc : list string -> nat)
  : shell :=
  Shell token
    (fun cmd w => (Ok (rc cmd, ""), add_lines [echo_line cmd] w))
    (fun _ _ => Ok false)
    (fun _ _ => Raise (OtherError "KeyError")).

(** The commands echoed in an output. *)
Definition command_of (e : entry) : option (list string) :=
  match color e with
  | OKCYAN =>
      Some (omap (fun p => match p with Str s => Some s | _ => None end)
              (message e))
  | _ => None
  end.

Definition commands (o : list entry) : list (list string) :=
  omap command_of o.

(** The commands of step 12 in order, each with whether its return code is
    checked: [git init] only without a repository, [git remote add] only
    when the remote is not known. *)
Definition git_plan (S : shell) (has_git remote_known : bool)
  : list (bool * list string) :=
  (if has_git then [] else [(true, ["git"; "init"])])
  ++ [(true, ["git"; "add"; "."]);
      (true, ["git"; "commit"; "-m"; Publish.commit_message]);
      (true, ["git"; "tag"; "-f"; "v" +:+ VERSION]);
      (false, ["git"; "remote"; "get-url"; "origin"])]
  ++ (if remote_known then []
      else [(true, ["git"; "remote"; "add"; "origin";
                    Publish.remote_url S])])
  ++ [(true, ["git"; "push"; "-u"; "origin"; "main"; "--force"]);
      (true, ["git"; "push"; "origin"; "v" +:+ VERSION; "--force"])].

(** A planned command lets the step go on. *)
Definition goes_on (rc : list string -> nat) (c : bool * list string) : bool :=
  negb c.1 || (rc c.2 =? 0)%nat.

(** The commands of a plan up to and including the first that stops it. *)
Fixpoint until_failure (rc : list string -> nat)
    (plan : list (bool * list string)) : list (list string) :=
  match plan with
  | [] => []
  | c :: rest =>
      if goes_on rc c then c.2 :: until_failure rc rest else [c.2]
  end.

(** A shell on which no program can be started. *)
Definition no_programs : shell :=
  Shell (Some "t0k3n")
    (fun _ w => (Raise FileNotFoundError, w))
    (fun _ _ => Ok false)
    (fun _ _ => Raise (OtherError "KeyError")).

(* ================================================================== *)
(** * Properties of the text operations *)
(* ================================================================== *)

Lemma append_nil_l (s : string) : "" +:+ s = s.
Proof. reflexivity. Qed.

Lemma append_cons (c : ascii) (s t : string) :
  String c s +:+ t = String c (s +:+ t).
Proof. reflexivity. Qed.

Lemma prefix_true_iff (p s : string) :
  String.prefix p s = true <-> exists after, s = p +:+ after.
Proof.
  revert s. induction p as [|c p IH]; intros s.
  - split; [intros _; by exists s | by destruct s].
  - destruct s as [|c' s]; simpl.
    + split; [done | intros [after H]; discriminate H].
    + destruct (ascii_dec c c') as [->|Hne].
      * rewrite IH. split; intros [after H]; exists after.
        -- by rewrite append_cons, <- H.
        -- rewrite append_cons in H. by injection H.
      * split; [done | intros [after H]].
        rewrite append_cons in H. injection H as H1 _. congruence.
Qed.

Lemma str_in_nil (needle : string) :
  str_in needle "" = String.prefix needle "".
Proof.
  change (str_in needle "")
    with (if String.prefix needle "" then true else false).
  by destruct (String.prefix needle "").
Qed.

Lemma str_in_cons (needle : string) (c : ascii) (hay : string) :
  str_in needle (String c hay)
  = String.prefix needle (String c hay) || str_in needle hay.
Proof.
  change (str_in needle (String c hay))
    with (if String.prefix needle (String c hay) then true
          else str_in needle hay).
  by destruct (String.prefix needle (String c hay)).
Qed.

Lemma str_in_true_iff (needle hay : string) :
  str_in needle hay = true <-> occurs_in needle hay.
Proof.
  induction hay as [|c hay IH].
  - rewrite str_in_nil, prefix_true_iff. split.
    + intros [after H]. by exists "", after.
    + intros (before & after & H). exists after.
      destruct before; [done | discriminate H].
  - rewrite str_in_cons, orb_true_iff, prefix_true_iff, IH. split.
    + intros [[after H] | (before & after & ->)].
      * by exists "", after.
      * by exists (String c before), after.
    + intros (before & after & H). destruct before as [|c' before].
      * left. by exists after.
      * right. rewrite append_cons in H. injection H as -> ->.
        by exists before, after.
Qed.

Lemma str_in_false_iff (needle hay : string) :
  str_in needle hay = false <-> ~ occurs_in needle hay.
Proof.
  rewrite <- str_in_true_iff. destruct (str_in needle hay); split; congruence.
Qed.

(* ================================================================== *)
(** * The heuristic checks *)
(* ================================================================== *)

(** Running a check on a world whose artifact is a file. *)
Ltac run_check :=
  unfold with_file, os_path_exists, read_text,
    log_test, log_header, log_error, log;
  repeat (progress (unfold mbind, M_bind, mret, M_ret;
                    cbn; rewrite ?lookup_insert_eq)).

(** What the injection check computes on a query artifact that is a file. *)
Lemma test_sql_injection_protection_file (c : string) f o :
  let text := universal_newlines c in
  (test_sql_injection_protection
     (with_file "src/core/QueryEngine.js" c f o)).1
  = Ok (str_in "_filter" text && negb (str_in "eval(" text)).
Proof. unfold test_sql_injection_protection. by run_check. Qed.

Lemma test_jwt_security_file P (c : string) f o :
  let text := universal_newlines c in
  let r := test_jwt_security P (with_file "src/utils/jwt.js" c f o) in
  r.1 = Ok (str_in "verifyJWT" text
            && (str_in "signature" text && str_in "!=" text)
            && (str_in "exp" text && str_in "Date.now()" text))
  /\ secret_line (findall_secret P text) ∈ out r.2.
Proof.
  unfold test_jwt_security, secret_line. run_check.
  destruct (findall_secret P (universal_newlines c) =? 0)%nat; cbn;
    (split; [done|]); rewrite !elem_of_app, !list_elem_of_singleton; auto.
Qed.

(** The injection check passes [query_without_operators], which shows no
    evidence of operator validation: the three-way condition of C1 is not
    what gates the verdict. *)
Lemma C1_operator_evidence_not_gating :
  let text := universal_newlines query_without_operators in
  let w := with_file "src/core/QueryEngine.js" query_without_operators ∅ [] in
  ~ ((test_sql_injection_protection w).1 = Ok true
     <-> occurs_in "_filter" text
         /\ (occurs_in "$eq" text \/ occurs_in "operator" text)
         /\ ~ occurs_in "eval(" text).
Proof.
  intros text w [H _].
  destruct (H eq_refl) as (_ & [Hop | Hop] & _);
    apply str_in_true_iff in Hop; vm_compute in Hop; discriminate Hop.
Qed.

(** C1 (amended): on every query artifact the injection-safety check passes
    exactly when the text read from it contains "_filter" and does not
    contain "eval("; whether it contains "$eq" or "operator" is logged and
    does not enter the verdict.  The check always yields a verdict, and a
    text that contains "eval(" fails whatever else it contains. *)
Theorem C1_injection_check_gating (c : string) f o :
  let text := universal_newlines c in
  let w := with_file "src/core/QueryEngine.js" c f o in
  ((test_sql_injection_protection w).1 = Ok true
   <-> occurs_in "_filter" text /\ ~ occurs_in "eval(" text)
  /\ ((test_sql_injection_protection w).1 = Ok true
      \/ (test_sql_injection_protection w).1 = Ok false)
  /\ (occurs_in "eval(" text ->
      (test_sql_injection_protection w).1 = Ok false).
Proof.
  intros text w. unfold w.
  rewrite test_sql_injection_protection_file. fold text.
  rewrite <- str_in_true_iff, <- str_in_false_iff, <- str_in_true_iff.
  destruct (str_in "_filter" text), (str_in "eval(" text); simpl;
    repeat split; auto; try congruence; intros []; congruence.
Qed.

(** C5: on every token artifact the token check passes exactly when the
    text read from it contains "verifyJWT", contains "signature" together
    with "!=", and contains "exp" together with "Date.now()".  The
    hardcoded-secret match is logged, and the verdict is the same whatever
    the pattern matcher returns. *)
Theorem C5_token_check_gating (P : platform) (c : string) f o :
  let text := universal_newlines c in
  let w := with_file "src/utils/jwt.js" c f o in
  ((test_jwt_security P w).1 = Ok true
   <-> occurs_in "verifyJWT" text
       /\ (occurs_in "signature" text /\ occurs_in "!=" text)
       /\ (occurs_in "exp" text /\ occurs_in "Date.now()" text))
  /\ ((test_jwt_security P w).1 = Ok true
      \/ (test_jwt_security P w).1 = Ok false)
  /\ secret_line (findall_secret P text) ∈ out (test_jwt_security P w).2
  /\ (forall P' : platform,
        (test_jwt_security P' w).1 = (test_jwt_security P w).1).
Proof.
  intros text w. unfold w.
  destruct (test_jwt_security_file P c f o) as [Hv Hlog].
  rewrite Hv. fold text. rewrite <- !str_in_true_iff.
  split; [|split; [|split]].
  - destruct (str_in "verifyJWT" text), (str_in "signature" text),
      (str_in "!=" text), (str_in "exp" text), (str_in "Date.now()" text);
      simpl; split; try congruence; try tauto; intros (? & [] & []); congruence.
  - destruct (_ && _ && _); auto.
  - exact Hlog.
  - intros P'. by destruct (test_jwt_security_file P' c f o) as [-> _].
Qed.

(* ================================================================== *)
(** * The source inventory *)
(* ================================================================== *)

Lemma collect_missing_run (manifest acc : list string) (w : world) :
  for_in manifest
    (fun file missing =>
       b ← os_path_exists file;
       mret (if negb b then (missing ++ [file])%list else missing))
    acc w
  = (Ok (acc ++ missing_of (fs w) manifest), w).
Proof.
  revert acc. induction manifest as [|p manifest IH]; intros acc; simpl.
  - by rewrite app_nil_r.
  - unfold mbind, M_bind, os_path_exists at 1, mret, M_ret. simpl.
    rewrite IH. unfold missing_of. rewrite filter_cons.
    destruct (decide (~ is_Some (fs w !! p))) as [Hno|Hyes].
    + rewrite bool_decide_eq_false_2 by done. simpl.
      by rewrite <- app_assoc.
    + rewrite bool_decide_eq_true_2; [done|].
      by destruct (fs w !! p); [eexists | exfalso; apply Hyes; intros []].
Qed.

Lemma print_missing_run (missing : list string) (w : world) :
  for_in missing (fun file _ => log [Lit "  - "; Str file] FAIL) tt w
  = (Ok tt,
     World (fs w)
       (out w ++ map (fun file => Entry FAIL [Lit "  - "; Str file]) missing)).
Proof.
  revert w. induction missing as [|p missing IH]; intros w; simpl.
  - rewrite app_nil_r. by destruct w.
  - unfold mbind, M_bind, log at 1. rewrite IH. simpl.
    by rewrite <- app_assoc.
Qed.

Lemma validate_source_files_of_run (manifest : list string) (w : world) :
  let missing := missing_of (fs w) manifest in
  let header :=
    Entry HEADER_BOLD
      [Lit "====="; Lit "Step 2: Validating Source Files"; Lit "====="] in
  validate_source_files_of manifest w
  = (Ok (nil_b missing),
     World (fs w)
       (out w ++ header ::
          (if nil_b missing
           then [Entry OKGREEN
                   [Lit "✅ "; Lit "All "; Num (length manifest);
                    Lit " source files present"]]
           else missing_report missing))).
Proof.
  intros missing header. unfold validate_source_files_of.
  unfold mbind at 1, M_bind at 1, log_header, log at 1.
  cbn [fs out].
  unfold mbind at 1, M_bind at 1. rewrite collect_missing_run.
  cbn [fs app]. fold missing.
  destruct missing as [|p missing'] eqn:Hm; cbn [nil_b negb].
  - unfold log_success, log, mbind, M_bind, mret, M_ret. cbn.
    by rewrite <- app_assoc.
  - unfold log_error, mbind at 1, M_bind at 1, log at 1. cbn [fs out].
    unfold mbind at 1, M_bind at 1. rewrite print_missing_run.
    unfold mret, M_ret, missing_report. cbn [fs out].
    by rewrite <- !app_assoc.
Qed.

(** C4: for every manifest and every tree, the source-inventory check
    returns True exactly when every path of the manifest exists; otherwise
    it returns False and reports, after the count, exactly the paths of the
    manifest that do not exist, in manifest order.  It reads the tree and
    does not change it. *)
Theorem C4_inventory_check (manifest : list string) (w : world) :
  let r := validate_source_files_of manifest w in
  let missing := missing_of (fs w) manifest in
  ((r.1 = Ok true <-> forall p, p ∈ manifest -> is_Some (fs w !! p))
   /\ (r.1 = Ok true \/ r.1 = Ok false))
  /\ (r.1 = Ok false ->
      exists header,
        out r.2 = (out w ++ header :: missing_report missing)%list)
  /\ (forall p, p ∈ missing <-> p ∈ manifest /\ fs w !! p = None)
  /\ fs r.2 = fs w.
Proof.
  intros r missing. unfold r. rewrite validate_source_files_of_run.
  fold missing. cbn [fst snd fs out].
  assert (forall p, p ∈ missing <-> p ∈ manifest /\ fs w !! p = None) as Hmem.
  { intros p. unfold missing, missing_of. rewrite list_elem_of_filter.
    rewrite <- eq_None_not_Some. tauto. }
  clearbody missing.
  split; [split|split; [|split]]; [| | |exact Hmem|done].
  - split.
    + intros Hok p Hp. destruct (fs w !! p) eqn:Hl; [by eexists|].
      assert (p ∈ missing) as Hin by (by apply Hmem).
      destruct missing; [by apply elem_of_nil in Hin | discriminate Hok].
    + intros Hall. destruct missing as [|p l]; [done|].
      assert (p ∈ p :: l) as Hin by left.
      apply Hmem in Hin as [Hp Hno].
      destruct (Hall p Hp) as [? ?]. congruence.
  - destruct missing; auto.
  - intros Hfail. destruct missing; [discriminate Hfail|]. by eexists.
Qed.

(* ================================================================== *)
(** * The pipeline runner *)
(* ================================================================== *)

Lemma run_step_pass st acc w :
  outcome st w = true ->
  run_step st acc w = (Ok (acc ++ [(st.1, true)], None), after_step st w).
Proof.
  unfold outcome, after_step, run_step. destruct st as [name func]; simpl.
  unfold try_except, mbind, M_bind.
  destruct (func w) as [[[|]|e] w']; simpl; done.
Qed.

Lemma run_step_stop st acc w :
  outcome st w = false ->
  run_step st acc w
  = (Ok (acc ++ [(st.1, false)], Some false),
     add_lines (failure_lines st w) (after_step st w)).
Proof.
  unfold outcome, after_step, run_step, failure_lines, add_lines.
  destruct st as [name func]; simpl.
  unfold try_except, mbind, M_bind, log_error, log, mret, M_ret.
  destruct (func w) as [[[|]|e] w']; simpl; try done.
  intros _. by rewrite <- app_assoc.
Qed.

(** The loop runs its first step and goes on exactly when it passed. *)
Lemma run_steps_cons st rest acc w :
  run_steps (st :: rest) acc w
  = if outcome st w
    then run_steps rest (acc ++ [(st.1, true)]) (after_step st w)
    else (Ok (acc ++ [(st.1, false)], Some false),
          add_lines (failure_lines st w) (after_step st w)).
Proof.
  destruct (outcome st w) eqn:Ho; simpl; unfold mbind, M_bind.
  - by rewrite run_step_pass.
  - by rewrite run_step_stop.
Qed.

(** The result of the loop in terms of the executed prefix. *)
Lemma run_steps_results l acc w :
  (run_steps l acc w).1
  = Ok (acc ++ outcomes (executed l w) w,
        if forallb snd (outcomes (executed l w) w) then None else Some false).
Proof.
  revert acc w. induction l as [|st rest IH]; intros acc w.
  - simpl. by rewrite app_nil_r.
  - rewrite run_steps_cons. simpl. destruct (outcome st w) eqn:Ho; simpl.
    + rewrite IH, Ho. simpl. by rewrite <- app_assoc.
    + by rewrite Ho.
Qed.

Lemma executed_prefix l w : executed l w `prefix_of` l.
Proof.
  revert w. induction l as [|st rest IH]; intros w; simpl; [done|].
  destruct (outcome st w).
  - by apply prefix_cons.
  - by exists rest.
Qed.

(** What comes after the first step that does not pass is never looked at:
    any other continuation gives the same run. *)
Lemma run_steps_halted l acc w other :
  forallb snd (outcomes (executed l w) w) = false ->
  run_steps (executed l w ++ other) acc w = run_steps l acc w.
Proof.
  revert acc w. induction l as [|st rest IH]; intros acc w H; [done|].
  cbn [executed] in *. rewrite (run_steps_cons st rest).
  destruct (outcome st w) eqn:Ho.
  - cbn [outcomes forallb fst snd] in H. rewrite Ho in H.
    change ((st :: executed rest (after_step st w)) ++ other)
      with (st :: (executed rest (after_step st w) ++ other)).
    rewrite run_steps_cons, Ho. by apply IH.
  - change ([st] ++ other) with (st :: other).
    by rewrite run_steps_cons, Ho.
Qed.

Lemma outcomes_length l w : length (outcomes l w) = length l.
Proof. revert w. induction l; intros w; simpl; auto. Qed.

(** Before the last executed step every outcome is Pass. *)
Lemma executed_init_pass l w i b :
  outcomes (executed l w) w !! i = Some b ->
  S i < length (executed l w) -> b.2 = true.
Proof.
  revert w i. induction l as [|st rest IH]; intros w i; simpl; [done|].
  destruct (outcome st w) eqn:Ho; simpl.
  - destruct i as [|i]; simpl.
    + intros [= <-] _. done.
    + intros H Hlt. apply (IH _ _ H). lia.
  - intros _ Hlt. lia.
Qed.

Lemma executed_short l w :
  length (executed l w) < length l ->
  forallb snd (outcomes (executed l w) w) = false.
Proof.
  revert w. induction l as [|st rest IH]; intros w; simpl; [lia|].
  destruct (outcome st w) eqn:Ho; simpl; rewrite Ho; simpl; [|done].
  intros H. apply IH. lia.
Qed.

Lemma outcome_cases st w :
  (exists w', st.2 w = (Ok true, w')
              /\ outcome st w = true /\ after_step st w = w')
  \/ ((forall w', st.2 w <> (Ok true, w')) /\ outcome st w = false).
Proof.
  unfold outcome, after_step. destruct st as [name func]; cbn [snd].
  destruct (func w) as [[[|]|e] w'].
  - left. by exists w'.
  - right. split; [intros ? [=] | done].
  - right. split; [intros ? [=] | done].
Qed.

Lemma passing_cons st rest w :
  passing (st :: rest) w
  = if outcome st w then passing rest (after_step st w) else None.
Proof.
  cbn [passing]. unfold outcome, after_step.
  destruct st as [name func]; cbn [snd].
  by destruct (func w) as [[[|]|e] w'].
Qed.

Lemma passing_outcomes l w :
  is_Some (passing l w) <-> forallb snd (outcomes (executed l w) w) = true.
Proof.
  revert w. induction l as [|st rest IH]; intros w.
  - simpl. split; [done | by eexists].
  - rewrite passing_cons. cbn [executed].
    destruct (outcome st w) eqn:Ho; cbn [outcomes forallb snd]; rewrite Ho.
    + apply IH.
    + simpl. split; [intros [? ?]; done | done].
Qed.

Lemma passing_executed l w w1 :
  passing l w = Some w1 ->
  executed l w = l /\ outcomes l w = passed_pairs l.
Proof.
  revert w. induction l as [|st rest IH]; intros w; [done|].
  rewrite passing_cons. cbn [executed outcomes passed_pairs map].
  destruct (outcome st w) eqn:Ho; [|done].
  intros H. destruct (IH _ H) as [-> ->]. done.
Qed.

(** A prefix of passing steps only extends the result list. *)
Lemma run_steps_passing pre rest acc w w1 :
  passing pre w = Some w1 ->
  run_steps (pre ++ rest) acc w = run_steps rest (acc ++ passed_pairs pre) w1.
Proof.
  revert acc w. induction pre as [|st pre IH]; intros acc w.
  - intros [= ->]. simpl. by rewrite app_nil_r.
  - change ((st :: pre) ++ rest) with (st :: (pre ++ rest)).
    rewrite run_steps_cons, passing_cons.
    destruct (outcome st w) eqn:Ho; [|done].
    intros H. rewrite (IH _ _ H). simpl. by rewrite <- app_assoc.
Qed.

(** C3: for every list of steps the runner executes the steps in declared
    order, each in the world left by the one before, and stops at the first
    step whose outcome is not Pass.  The result list is exactly the
    (name, outcome) pairs of the executed prefix; its length is the number
    of steps executed, at most the number declared; every outcome before the
    last is Pass, and when fewer steps ran than were declared the run holds
    a non-Pass outcome.  The steps after the first non-Pass outcome are
    never invoked: replacing them by any others changes neither the result
    nor the world. *)
Theorem C3_runner_stops_at_first_failure (l : list step) (w : world) :
  let ran := executed l w in
  let results := outcomes ran w in
  (run_steps l [] w).1
    = Ok (results, if forallb snd results then None else Some false)
  /\ ran `prefix_of` l
  /\ length results = length ran
  /\ length ran <= length l
  /\ (forall i b,
        results !! i = Some b -> S i < length ran -> b.2 = true)
  /\ (length ran < length l -> forallb snd results = false)
  /\ (forall other : list step,
        forallb snd results = false ->
        run_steps (ran ++ other) [] w = run_steps l [] w).
Proof.
  intros ran results. unfold results, ran.
  split; [|split; [|split; [|split; [|split; [|split]]]]].
  - by rewrite run_steps_results.
  - apply executed_prefix.
  - apply outcomes_length.
  - apply prefix_length, executed_prefix.
  - apply executed_init_pass.
  - apply executed_short.
  - intros other H. by apply run_steps_halted.
Qed.

(** C7: when the steps before [st] all pass and the function of [st]
    raises, the runner turns the exception into the outcome False, appends
    ([st]'s name, False) to the result list, prints the exception and
    returns False at once; the result and the world do not depend on the
    steps that follow, which are not executed. *)
Theorem C7_exception_becomes_failure
    (pre : list step) (st : step) (post : list step)
    (w w1 w2 : world) (e : exn) :
  passing pre w = Some w1 ->
  st.2 w1 = (Raise e, w2) ->
  run_steps (pre ++ st :: post) [] w
  = (Ok (passed_pairs pre ++ [(st.1, false)], Some false),
     add_lines
       [Entry FAIL
          [Lit "❌ "; Lit "❌ Exception in "; Str st.1; Lit ": "; ExnStr e]]
       w2)
  /\ (forall post' : list step,
        run_steps (pre ++ st :: post') [] w
        = run_steps (pre ++ st :: post) [] w).
Proof.
  intros Hpre Hst.
  assert (forall q, run_steps (pre ++ st :: q) [] w
    = (Ok (passed_pairs pre ++ [(st.1, false)], Some false),
       add_lines
         [Entry FAIL
            [Lit "❌ "; Lit "❌ Exception in "; Str st.1; Lit ": "; ExnStr e]]
         w2)) as Hrun.
  { intros q. rewrite (run_steps_passing _ _ _ _ _ Hpre), run_steps_cons.
    unfold outcome, failure_lines, after_step. rewrite Hst. done. }
  split; [apply Hrun|]. intros post'. by rewrite !Hrun.
Qed.

(** ** [main] and the exit code *)

Lemma for_in_unit_ok {A} (l : list A) (body : A -> unit -> M unit) w :
  (forall x w, (body x tt w).1 = Ok tt) ->
  (for_in l body tt w).1 = Ok tt.
Proof.
  intros Hbody. revert w. induction l as [|x l IH]; intros w; simpl; [done|].
  unfold mbind, M_bind. specialize (Hbody x w).
  destruct (body x tt w) as [[[]|e] w']; simpl in Hbody; [apply IH | done].
Qed.

Lemma filter_all_true (l : list (string * bool)) :
  forallb snd l = true -> List.filter snd l = l.
Proof.
  induction l as [|[n b] l IH]; simpl; [done|].
  destruct b; simpl; [|done]. intros H. by rewrite IH.
Qed.

(** [main] returns the result list of the loop, and True exactly when no
    outcome in it is a failure. *)
Lemma main_of_run (l : list step) (w : world) :
  let results := outcomes (executed l (banner w)) (banner w) in
  (main_of l w).1 = Ok (results, forallb snd results).
Proof.
  intros results. unfold main_of.
  unfold mbind at 1 2 3 4, M_bind at 1 2 3 4, log_header, log at 1 2 3 4.
  cbn [fs out app].
  replace (World (fs w) _) with (banner w).
  2:{ unfold banner, add_lines. by rewrite <- !app_assoc. }
  unfold mbind at 1, M_bind at 1.
  pose proof (run_steps_results l [] (banner w)) as Hr.
  fold results in Hr. cbn [app] in Hr.
  destruct (run_steps l [] (banner w)) as [r w']. cbn [fst] in Hr. subst r.
  cbn [fst snd]. destruct (forallb snd results) eqn:Hall.
  - rewrite (filter_all_true _ Hall), Nat.eqb_refl.
    unfold mbind at 1 2, M_bind at 1 2, log_header, log at 1 2.
    unfold mbind at 1, M_bind at 1.
    match goal with
    | |- context [for_in results ?body tt ?w0] =>
        pose proof (for_in_unit_ok results body w0) as Hp
    end.
    destruct (for_in results _ tt _) as [p w'']. cbn [fst] in Hp.
    rewrite Hp; [done|]. by intros [n b] w0.
  - done.
Qed.

Lemma script_run (P : platform) (w : world) :
  let results := outcomes (executed (steps P) (banner w)) (banner w) in
  (script P w).1 = Ok (if forallb snd results then 0 else 1).
Proof.
  intros results. unfold script, main.
  pose proof (main_of_run (steps P) w) as Hm. fold results in Hm.
  unfold mbind, M_bind.
  destruct (main_of (steps P) w) as [r w']. cbn [fst] in Hm. subst r.
  done.
Qed.

(** C8: the script always exits with code 0 or 1.  The code is 0 exactly
    when every declared step, run in order after the banner, returned True;
    then all thirteen were executed.  In every other case, a step that
    returned False or a step that raised, the code is 1. *)
Theorem C8_exit_code (P : platform) (w : world) :
  ((script P w).1 = Ok 0 <-> is_Some (passing (steps P) (banner w)))
  /\ ((script P w).1 = Ok 1 <-> passing (steps P) (banner w) = None)
  /\ ((script P w).1 = Ok 0 ->
      (main_of (steps P) w).1 = Ok (passed_pairs (steps P), true)
      /\ length (passed_pairs (steps P)) = 13).
Proof.
  rewrite script_run, main_of_run, passing_outcomes, eq_None_not_Some,
    passing_outcomes.
  destruct (forallb snd _) eqn:Hall.
  - repeat split; try done.
    apply passing_outcomes in Hall as [w1 Hp].
    by destruct (passing_executed _ _ _ Hp) as [-> ->].
  - repeat split; try done; intros [=].
Qed.

(* ================================================================== *)
(** * The bundle assembler *)
(* ================================================================== *)

(** ** Paths *)

Lemma startswith_src (p : string) :
  startswith "src/" p = true -> p = "src/" +:+ str_drop 4 p.
Proof.
  unfold startswith. intros H. apply prefix_true_iff in H as [r ->].
  reflexivity.
Qed.

Lemma dist_of_inj (x y : string) :
  startswith "src/" x = true -> startswith "src/" y = true ->
  dist_of x = dist_of y -> x = y.
Proof.
  intros Hx Hy H. rewrite (startswith_src _ Hx), (startswith_src _ Hy).
  f_equal. unfold dist_of in H. injection H as H. exact H.
Qed.

Lemma first_char_src (p : string) :
  startswith "src/" p = true -> first_char p = Some "s"%char.
Proof. intros H. by rewrite (startswith_src _ H). Qed.

Lemma first_char_dist (p : string) : first_char (dist_of p) = Some "d"%char.
Proof. reflexivity. Qed.

Lemma append_nil_r (s : string) : s +:+ "" = s.
Proof. induction s as [|x s IH]; [done|]. by rewrite append_cons, IH. Qed.

Lemma append_assoc (a b c : string) : (a +:+ b) +:+ c = a +:+ (b +:+ c).
Proof. induction a as [|x a IH]; [done|]. by rewrite !append_cons, IH. Qed.

Lemma append_length (a b : string) :
  String.length (a +:+ b) = String.length a + String.length b.
Proof. induction a as [|x a IH]; [done|]. rewrite append_cons. simpl. lia. Qed.

(** A directory above a path extends the prefix walked so far and is
    shorter than the whole path. *)
Lemma parents_from_spec (pre s d : string) :
  d ∈ parents_from pre s ->
  (exists t, d = pre +:+ t)
  /\ String.length d < String.length pre + String.length s.
Proof.
  revert pre. induction s as [|c s IH]; intros pre; simpl.
  - intros H. by apply elem_of_nil in H.
  - destruct (Ascii.eqb c "/").
    + rewrite elem_of_app. intros [H | H].
      * destruct (String.eqb pre ""); [by apply elem_of_nil in H|].
        apply list_elem_of_singleton in H as ->. split; [|lia].
        exists "". clear. induction pre as [|x pre IH]; [done|].
        by rewrite append_cons, <- IH.
      * destruct (IH _ H) as [[t ->] Hlen]. split.
        -- exists ("/" +:+ t). by rewrite append_assoc.
        -- rewrite !append_length in *. simpl in *. lia.
    + intros H. destruct (IH _ H) as [[t ->] Hlen]. split.
      * exists (String c "" +:+ t). by rewrite append_assoc.
      * rewrite !append_length in *. simpl in *. lia.
Qed.

Lemma parents_neq (s d : string) : d ∈ parents s -> d <> s.
Proof.
  intros H ->. apply parents_from_spec in H as [_ H]. simpl in H. lia.
Qed.

Lemma parents_dist_of (p : string) :
  parents (dist_of p) = "dist" :: parents_from "dist/" (str_drop 4 p).
Proof. reflexivity. Qed.

Lemma parents_dist_first_char (p d : string) :
  d ∈ parents (dist_of p) -> first_char d = Some "d"%char.
Proof.
  rewrite parents_dist_of. intros H. apply elem_of_cons in H as [-> | H].
  - done.
  - by apply parents_from_spec in H as [[t ->] _].
Qed.

(** ** The file system under the copy loop *)

Lemma set_fs_same (w : world) : set_fs (fs w) w = w.
Proof. by destruct w. Qed.

Lemma lookup_add_dir d f q :
  add_dir d f !! q
  = match f !! q with
    | Some n => Some n
    | None => if decide (q = d) then Some Dir else None
    end.
Proof.
  unfold add_dir. destruct (f !! d) eqn:Hd.
  - destruct (f !! q) eqn:Hq; [done|]. case_decide; [congruence | done].
  - destruct (decide (q = d)) as [->|Hne].
    + by rewrite lookup_insert_eq, Hd.
    + rewrite lookup_insert_ne by done. by destruct (f !! q).
Qed.

Lemma lookup_add_dirs ds f q :
  add_dirs ds f !! q
  = match f !! q with
    | Some n => Some n
    | None => if decide (q ∈ ds) then Some Dir else None
    end.
Proof.
  unfold add_dirs. revert f. induction ds as [|d ds IH]; intros f; simpl.
  - by destruct (f !! q).
  - rewrite IH, lookup_add_dir. destruct (f !! q); [done|].
    destruct (decide (q = d)) as [->|Hne].
    + rewrite decide_True; [done | left].
    + destruct (decide (q ∈ ds)) as [Hin|Hout].
      * rewrite decide_True; [done | by right].
      * rewrite decide_False; [done|]. by intros [?|?]%elem_of_cons.
Qed.

Lemma is_file_add_dir d f q : is_file (add_dir d f) q = is_file f q.
Proof.
  unfold is_file. rewrite lookup_add_dir.
  destruct (f !! q); [done|]. by case_decide.
Qed.

Lemma no_file_add_dir d ds f : no_file ds (add_dir d f) = no_file ds f.
Proof.
  unfold no_file. induction ds as [|x ds IH]; simpl; [done|].
  by rewrite is_file_add_dir, IH.
Qed.

Lemma mkdirs_ok (ds : list string) (w : world) :
  no_file ds (fs w) = true ->
  mkdir_chain ds w = (Ok tt, set_fs (add_dirs ds (fs w)) w).
Proof.
  revert w. induction ds as [|d ds IH]; intros w; cbn [mkdir_chain].
  - intros _. unfold add_dirs. cbn [fold_left]. by rewrite set_fs_same.
  - intros [Hd Hds]%andb_true_iff. unfold is_file in Hd.
    unfold add_dirs. cbn [fold_left]. fold (add_dirs ds).
    pose proof (no_file_add_dir d ds (fs w)) as Hn.
    unfold add_dir in *.
    destruct (fs w !! d) as [[c|]|] eqn:Hl; [done| |].
    + by apply IH.
    + rewrite IH; [done|]. cbn [fs set_fs]. by rewrite Hn.
Qed.

Lemma mkdirs_fail (ds : list string) (w : world) :
  no_file ds (fs w) = false ->
  exists e w', mkdir_chain ds w = (Raise e, w').
Proof.
  revert w. induction ds as [|d ds IH]; intros w; cbn [mkdir_chain]; [done|].
  cbn [no_file forallb]. fold (no_file ds (fs w)). intros H.
  unfold is_file in H.
  pose proof (no_file_add_dir d ds (fs w)) as Hn. unfold add_dir in Hn.
  destruct (fs w !! d) as [[c|]|] eqn:Hl; simpl in H.
  - by eexists _, _.
  - by apply IH.
  - apply IH. cbn [fs set_fs]. by rewrite Hn.
Qed.

Lemma no_file_lookup ds f d :
  no_file ds f = true -> d ∈ ds -> is_file f d = false.
Proof.
  unfold no_file. rewrite forallb_forall. intros H Hd.
  apply list_elem_of_In in Hd. specialize (H d Hd).
  by destruct (is_file f d).
Qed.

Lemma last_elem_of {A} (l : list A) (x : A) : last l = Some x -> x ∈ l.
Proof.
  induction l as [|y l IH]; [done|]. destruct l as [|z l].
  - intros [= ->]. left.
  - intros H. right. by apply IH.
Qed.

Lemma lookup_add_dirs_member ds f d :
  no_file ds f = true -> d ∈ ds -> add_dirs ds f !! d = Some Dir.
Proof.
  intros Hn Hd. rewrite lookup_add_dirs.
  pose proof (no_file_lookup _ _ _ Hn Hd) as Hf. unfold is_file in Hf.
  destruct (f !! d) as [[c|]|]; [done|done|]. by rewrite decide_True.
Qed.

Lemma lookup_add_dirs_other ds f q :
  q ∉ ds -> add_dirs ds f !! q = f !! q.
Proof.
  intros Hq. rewrite lookup_add_dirs. destruct (f !! q); [done|].
  by rewrite decide_False.
Qed.

Lemma bundle_one_excluded p cf ec ep w :
  is_excluded p = true ->
  bundle_one p (cf, ec, ep) w
  = (Ok (cf, ec + 1, ep ++ [p]),
     add_lines
       [Entry WARNING
          [Lit "⚠️  "; Lit "Excluded: "; Str p; Lit " (plugin template)"]]
       w).
Proof. intros H. unfold bundle_one. by rewrite H. Qed.

Lemma bundle_one_copied p cf ec ep w :
  is_excluded p = false ->
  copy_ok p (fs w) = true ->
  bundle_one p (cf, ec, ep) w
  = (Ok (cf ++ [dist_of p], ec, ep), set_fs (copy_fs p (fs w)) w).
Proof.
  intros Hex Hok. unfold copy_ok in Hok.
  apply andb_true_iff in Hok as [Hok Hnd].
  apply andb_true_iff in Hok as [Hok Hfile].
  apply andb_true_iff in Hok as [Hsrc Hnf].
  unfold bundle_one. rewrite Hex. unfold relative_to_src. rewrite Hsrc.
  unfold mbind at 1, M_bind at 1, mret at 1, M_ret at 1.
  fold (dist_of p).
  unfold mbind at 1, M_bind at 1, mkdir_parent. rewrite (mkdirs_ok _ _ Hnf).
  unfold mbind at 1, M_bind at 1, read_text. cbn [fs set_fs].
  assert (p ∉ parents (dist_of p)) as Hp.
  { intros Hin. apply parents_dist_first_char in Hin.
    by rewrite (first_char_src _ Hsrc) in Hin. }
  rewrite (lookup_add_dirs_other _ _ _ Hp).
  unfold is_file in Hfile. unfold copy_fs, text_of.
  destruct (fs w !! p) as [[c|]|] eqn:Hl; try done.
  unfold mbind, M_bind, write_text, mret, M_ret. cbn [fs set_fs out].
  destruct (last (parents (dist_of p))) as [d|] eqn:Hlast.
  - rewrite (lookup_add_dirs_member _ _ _ Hnf (last_elem_of _ _ Hlast)).
    rewrite lookup_add_dirs_other by (intros H; by apply parents_neq in H).
    unfold is_dir in Hnd.
    by destruct (fs w !! dist_of p) as [[c'|]|].
  - rewrite lookup_add_dirs_other by (intros H; by apply parents_neq in H).
    unfold is_dir in Hnd.
    by destruct (fs w !! dist_of p) as [[c'|]|].
Qed.

Lemma bundle_one_raises p acc w :
  is_excluded p = false ->
  copy_ok p (fs w) = false ->
  exists e w', bundle_one p acc w = (Raise e, w').
Proof.
  intros Hex Hok. destruct acc as [[cf ec] ep].
  unfold bundle_one. rewrite Hex. unfold relative_to_src, copy_ok in *.
  destruct (startswith "src/" p) eqn:Hsrc; [|by eexists _, _].
  unfold mbind at 1, M_bind at 1, mret at 1, M_ret at 1.
  fold (dist_of p). unfold mbind at 1, M_bind at 1, mkdir_parent.
  destruct (no_file (parents (dist_of p)) (fs w)) eqn:Hnf.
  2:{ destruct (mkdirs_fail _ _ Hnf) as (e & w' & ->). by eexists _, _. }
  rewrite (mkdirs_ok _ _ Hnf).
  unfold mbind at 1, M_bind at 1, read_text. cbn [fs set_fs].
  assert (p ∉ parents (dist_of p)) as Hp.
  { intros Hin. apply parents_dist_first_char in Hin.
    by rewrite (first_char_src _ Hsrc) in Hin. }
  rewrite (lookup_add_dirs_other _ _ _ Hp).
  unfold is_file in Hok.
  destruct (fs w !! p) as [[c|]|] eqn:Hl; try by eexists _, _.
  simpl in Hok. unfold is_dir in Hok.
  unfold mbind, M_bind, write_text, mret, M_ret. cbn [fs set_fs out].
  destruct (last (parents (dist_of p))) as [d|] eqn:Hlast.
  - rewrite (lookup_add_dirs_member _ _ _ Hnf (last_elem_of _ _ Hlast)).
    rewrite lookup_add_dirs_other by (intros H; by apply parents_neq in H).
    destruct (fs w !! dist_of p) as [[c'|]|]; try done. by eexists _, _.
  - rewrite lookup_add_dirs_other by (intros H; by apply parents_neq in H).
    destruct (fs w !! dist_of p) as [[c'|]|]; try done. by eexists _, _.
Qed.

(** ** The copy loop *)

Lemma included_cons p l :
  included (p :: l) = if is_excluded p then included l else p :: included l.
Proof. unfold included. simpl. by destruct (is_excluded p). Qed.

Lemma excluded_cons p l :
  excluded (p :: l) = if is_excluded p then p :: excluded l else excluded l.
Proof. reflexivity. Qed.

Lemma copy_loop_ok l cf ec ep w f' :
  copy_all l (fs w) = Some f' ->
  for_in l bundle_one (cf, ec, ep) w
  = (Ok (cf ++ map dist_of (included l),
         ec + length (excluded l),
         ep ++ excluded l),
     World f' (out w ++ warnings l)).
Proof.
  revert cf ec ep w. induction l as [|p l IH]; intros cf ec ep w.
  - simpl. intros [= <-]. rewrite !app_nil_r, Nat.add_0_r. by destruct w.
  - cbn [copy_all for_in]. unfold mbind, M_bind, warnings.
    rewrite included_cons, excluded_cons.
    destruct (is_excluded p) eqn:Hex.
    + intros H. rewrite (bundle_one_excluded _ _ _ _ _ Hex).
      rewrite (IH _ _ _ (add_lines _ w) H). unfold warnings. simpl.
      replace (ec + 1 + length (excluded l))
        with (ec + S (length (excluded l))) by lia.
      by rewrite <- !app_assoc.
    + destruct (copy_ok p (fs w)) eqn:Hok; [|done]. intros H.
      rewrite (bundle_one_copied _ _ _ _ _ Hex Hok).
      rewrite (IH _ _ _ (set_fs _ w) H). unfold warnings. simpl.
      by rewrite <- !app_assoc.
Qed.

Lemma copy_loop_raises l acc w :
  copy_all l (fs w) = None ->
  exists e w', for_in l bundle_one acc w = (Raise e, w').
Proof.
  revert acc w. induction l as [|p l IH]; intros acc w; [done|].
  cbn [copy_all for_in]. unfold mbind, M_bind. destruct acc as [[cf ec] ep].
  destruct (is_excluded p) eqn:Hex.
  - intros H. rewrite (bundle_one_excluded _ _ _ _ _ Hex).
    by apply (IH _ (add_lines _ w)).
  - destruct (copy_ok p (fs w)) eqn:Hok.
    + intros H. rewrite (bundle_one_copied _ _ _ _ _ Hex Hok).
      by apply (IH _ (set_fs _ w)).
    + intros _. destruct (bundle_one_raises p (cf, ec, ep) w Hex Hok)
        as (e & w' & ->). by eexists _, _.
Qed.

Lemma lookup_copy_fs p f q :
  copy_fs p f !! q
  = if decide (q = dist_of p) then Some (File (text_of f p))
    else add_dirs (parents (dist_of p)) f !! q.
Proof.
  unfold copy_fs. case_decide as H.
  - subst q. by rewrite lookup_insert_eq.
  - by rewrite lookup_insert_ne.
Qed.

(** A copy leaves everything outside [dist] as it was. *)
Lemma copy_fs_src_side p f q :
  first_char q <> Some "d"%char -> copy_fs p f !! q = f !! q.
Proof.
  intros Hq. rewrite lookup_copy_fs, decide_False.
  - apply lookup_add_dirs_other. intros H.
    by apply parents_dist_first_char in H.
  - intros ->. by rewrite first_char_dist in Hq.
Qed.

(** A copy keeps what is there, except at its own target. *)
Lemma copy_fs_keeps p f q n :
  q <> dist_of p -> f !! q = Some n -> copy_fs p f !! q = Some n.
Proof.
  intros Hq Hl. rewrite lookup_copy_fs, decide_False by done.
  by rewrite lookup_add_dirs, Hl.
Qed.

Lemma text_of_copy_fs p f q :
  startswith "src/" q = true -> text_of (copy_fs p f) q = text_of f q.
Proof.
  intros Hq. unfold text_of. rewrite copy_fs_src_side; [done|].
  by rewrite (first_char_src _ Hq).
Qed.

Lemma copy_ok_src p f : copy_ok p f = true -> startswith "src/" p = true.
Proof.
  unfold copy_ok. intros H.
  apply andb_true_iff in H as [H _]. apply andb_true_iff in H as [H _].
  by apply andb_true_iff in H as [H _].
Qed.

Lemma copy_ok_is_file p f :
  copy_ok p f = true -> exists c, f !! p = Some (File c).
Proof.
  unfold copy_ok. intros H.
  apply andb_true_iff in H as [H _]. apply andb_true_iff in H as [_ H].
  unfold is_file in H. destruct (f !! p) as [[c|]|]; try done. by exists c.
Qed.

Lemma elem_of_included p l :
  p ∈ included l <-> p ∈ l /\ is_excluded p = false.
Proof.
  unfold included. rewrite !list_elem_of_In, filter_In.
  destruct (is_excluded p); simpl; intuition congruence.
Qed.

Lemma elem_of_excluded p l :
  p ∈ excluded l <-> p ∈ l /\ is_excluded p = true.
Proof. unfold excluded. by rewrite !list_elem_of_In, filter_In. Qed.

(** When the loop goes well every copied path lies below [src], is a
    regular file, and its target holds its text afterwards; and what lies
    outside [dist] is unchanged. *)
Lemma copy_all_spec l f f' :
  copy_all l f = Some f' ->
  (forall p, p ∈ included l ->
     startswith "src/" p = true
     /\ (exists c, f !! p = Some (File c))
     /\ f' !! dist_of p = Some (File (text_of f p)))
  /\ (forall q, first_char q <> Some "d"%char -> f' !! q = f !! q)
  /\ (forall q n, f !! q = Some n ->
        (forall p, p ∈ included l -> q <> dist_of p) -> f' !! q = Some n).
Proof.
  revert f. induction l as [|x l IH]; intros f; cbn [copy_all].
  - intros [= <-]. split; [|split]; [|done|done].
    intros p Hp. by apply elem_of_nil in Hp.
  - destruct (is_excluded x) eqn:Hex.
    + intros H. destruct (IH _ H) as (IH1 & IH2 & IH3).
      split; [|split]; [|done|].
      * intros p Hp. apply IH1. apply elem_of_included in Hp as [Hp Hpe].
        apply elem_of_included. split; [|done].
        apply elem_of_cons in Hp as [->|Hp]; [congruence | done].
      * intros q n Hq Hne. apply (IH3 _ _ Hq). intros p Hp. apply Hne.
        apply elem_of_included in Hp as [Hp Hpe].
        apply elem_of_included. split; [by right | done].
    + destruct (copy_ok x f) eqn:Hok; [|done]. intros H.
      destruct (IH _ H) as (IH1 & IH2 & IH3).
      pose proof (copy_ok_src _ _ Hok) as Hxsrc.
      assert (forall p, p ∈ included l -> startswith "src/" p = true) as Hsrc
        by (intros p Hp; by destruct (IH1 p Hp)).
      split; [|split].
      * intros p Hp. apply elem_of_included in Hp as [Hp Hpe].
        destruct (decide (p ∈ included l)) as [Hin|Hout].
        -- destruct (IH1 p Hin) as (Hs & [c Hc] & Hd).
           rewrite text_of_copy_fs in Hd by done.
           rewrite copy_fs_src_side in Hc
             by (by rewrite (first_char_src _ Hs)).
           split; [done|]. split; [by exists c | done].
        -- apply elem_of_cons in Hp as [->|Hp].
           2:{ exfalso. apply Hout. by apply elem_of_included. }
           split; [done|]. split; [by apply copy_ok_is_file|].
           apply IH3.
           ++ by rewrite lookup_copy_fs, decide_True.
           ++ intros p Hp Heq. apply Hout.
              by rewrite (dist_of_inj _ _ Hxsrc (Hsrc _ Hp) Heq).
      * intros q Hq. rewrite (IH2 _ Hq). by apply copy_fs_src_side.
      * intros q n Hq Hne. apply IH3.
        -- apply copy_fs_keeps; [|done]. apply Hne.
           apply elem_of_included. split; [left | done].
        -- intros p Hp. apply Hne. apply elem_of_included in Hp as [Hp Hpe].
           apply elem_of_included. split; [by right | done].
Qed.

(** ** The whole step *)

Lemma size_loop (cf : list string) (acc : nat) (w : world) :
  (forall t, t ∈ cf -> exists c, fs w !! t = Some (File c)) ->
  for_in cf (fun f total => n ← os_path_getsize f; mret (total + n)) acc w
  = (Ok (acc + sum_list (map (file_size (fs w)) cf)), w).
Proof.
  revert acc. induction cf as [|t cf IH]; intros acc Hall; simpl.
  - by rewrite Nat.add_0_r.
  - destruct (Hall t) as [c Hc]; [left|].
    unfold mbind, M_bind, os_path_getsize at 1, mret, M_ret, file_size at 1.
    rewrite Hc. rewrite IH.
    + by rewrite Nat.add_assoc.
    + intros t' Ht'. apply Hall. by right.
Qed.

Lemma create_cdn_bundle_locals_ok P w b f' :
  bundle_of P (fs w) = Some (b, f') ->
  create_cdn_bundle_locals P w
  = (Ok b, World f' (out w ++ bundle_lines (src_files P (fs w)) b)).
Proof.
  unfold bundle_of. destruct (is_file (fs w) "dist") eqn:Hd; [done|].
  destruct (copy_all _ _) as [f''|] eqn:Hcopy; [|done].
  intros [= <- <-]. unfold create_cdn_bundle_locals.
  unfold mbind at 1, M_bind at 1, log_header, log at 1.
  unfold mbind at 1, M_bind at 1, makedirs.
  change (parents "dist" ++ ["dist"]) with ["dist"].
  rewrite mkdirs_ok by (cbn [fs no_file forallb]; by rewrite Hd).
  unfold mbind at 1, M_bind at 1, rglob_src_js. cbn [fs set_fs out].
  fold (with_dist (fs w)). fold (src_files P (fs w)).
  unfold mbind at 1, M_bind at 1.
  erewrite copy_loop_ok by (cbn [fs]; exact Hcopy).
  cbn [app plus out].
  unfold mbind at 1, M_bind at 1, log_success, log at 1.
  unfold mbind at 1, M_bind at 1, log at 1.
  unfold mbind at 1, M_bind at 1. cbn [fs out].
  rewrite size_loop.
  2:{ cbn [fs]. intros t Ht. apply list_elem_of_fmap in Ht as (p & -> & Hp).
      destruct (copy_all_spec _ _ _ Hcopy) as (H1 & _).
      destruct (H1 p Hp) as (_ & _ & Hl). by eexists. }
  cbn [fs plus]. unfold bundle_lines. cbn [cdn_files excluded_count total_size].
  unfold mbind at 1, M_bind at 1, log at 1. cbn [fs out].
  unfold mbind, M_bind, mret, M_ret.
  destruct (budget <? _)%nat eqn:Hb;
    unfold log_warning, log, set_fs; cbn [fs out];
    rewrite <- ?app_assoc; cbn [app]; by rewrite ?app_nil_r.
Qed.

Lemma create_cdn_bundle_locals_raises P w :
  bundle_of P (fs w) = None ->
  exists e w', create_cdn_bundle_locals P w = (Raise e, w').
Proof.
  unfold bundle_of, create_cdn_bundle_locals.
  unfold mbind at 1, M_bind at 1, log_header, log at 1.
  unfold mbind at 1, M_bind at 1, makedirs.
  change (parents "dist" ++ ["dist"]) with ["dist"].
  destruct (is_file (fs w) "dist") eqn:Hd.
  - intros _.
    edestruct (mkdirs_fail ["dist"]) as (e & w' & ->);
      [|by eexists _, _].
    cbn [fs no_file forallb]. by rewrite Hd.
  - rewrite mkdirs_ok by (cbn [fs no_file forallb]; by rewrite Hd).
    unfold mbind at 1, M_bind at 1, rglob_src_js. cbn [fs set_fs out].
    fold (with_dist (fs w)). fold (src_files P (fs w)).
    destruct (copy_all _ _) as [f''|] eqn:Hcopy; [done|]. intros _.
    unfold mbind at 1, M_bind at 1.
    edestruct (copy_loop_raises (src_files P (fs w))) as (e & w' & ->);
      [|by eexists _, _].
    exact Hcopy.
Qed.

(** ** Counting *)

Lemma filter_perm {A} (g : A -> bool) (l1 l2 : list A) :
  l1 ≡ₚ l2 -> List.filter g l1 ≡ₚ List.filter g l2.
Proof.
  induction 1 as [|x l1 l2 _ IH|x y l|l1 l2 l3 _ IH1 _ IH2]; simpl.
  - done.
  - destruct (g x); [by constructor | done].
  - destruct (g x), (g y); try done. by constructor.
  - by etrans.
Qed.

Lemma included_excluded_length (l : list string) :
  length (included l) + length (excluded l) = length l.
Proof.
  induction l as [|p l IH]; [done|].
  rewrite included_cons, excluded_cons.
  destruct (is_excluded p); simpl; lia.
Qed.

(** [makedirs('dist')] does not change what [rglob] finds below [src]. *)
Lemma src_js_paths_with_dist (f : gmap string node) :
  src_js_paths (with_dist f) ≡ₚ src_js_paths f.
Proof.
  unfold with_dist, add_dirs, src_js_paths. simpl. unfold add_dir.
  destruct (f !! "dist") eqn:Hd; [done|].
  etrans.
  - apply filter_perm, (Permutation_map fst).
    apply (map_to_list_insert f "dist" Dir Hd).
  - done.
Qed.

Lemma create_cdn_bundle_locals_inv P w b :
  (create_cdn_bundle_locals P w).1 = Ok b ->
  exists f',
    bundle_of P (fs w) = Some (b, f')
    /\ create_cdn_bundle_locals P w
       = (Ok b, World f' (out w ++ bundle_lines (src_files P (fs w)) b)).
Proof.
  intros H. destruct (bundle_of P (fs w)) as [[b' f']|] eqn:Hb.
  - pose proof (create_cdn_bundle_locals_ok _ _ _ _ Hb) as Hrun.
    rewrite Hrun in H. injection H as ->. by exists f'.
  - destruct (create_cdn_bundle_locals_raises _ _ Hb) as (e & w' & Hrun).
    rewrite Hrun in H. discriminate H.
Qed.

Lemma bundle_of_inv P f b f' :
  bundle_of P f = Some (b, f') ->
  let l := src_files P f in
  copy_all l (with_dist f) = Some f'
  /\ cdn_files b = map dist_of (included l)
  /\ excluded_count b = length (excluded l)
  /\ excluded_paths b = excluded l
  /\ total_size b = sum_list (map (file_size f') (cdn_files b)).
Proof.
  unfold bundle_of. destruct (is_file f "dist"); [done|].
  destruct (copy_all _ _) as [f''|] eqn:Hcopy; [|done].
  intros [= <- <-]. done.
Qed.

Lemma lookup_with_dist_src f p :
  startswith "src/" p = true -> with_dist f !! p = f !! p.
Proof.
  intros Hp. apply lookup_add_dirs_other.
  intros ->%list_elem_of_singleton. done.
Qed.

Lemma src_files_perm P f :
  lists_each_once P -> src_files P f ≡ₚ src_js_paths f.
Proof.
  intros HP. unfold src_files.
  etrans; [apply HP | apply src_js_paths_with_dist].
Qed.

Lemma included_perm l1 l2 : l1 ≡ₚ l2 -> included l1 ≡ₚ included l2.
Proof. apply filter_perm. Qed.

Lemma excluded_perm l1 l2 : l1 ≡ₚ l2 -> excluded l1 ≡ₚ excluded l2.
Proof. apply filter_perm. Qed.

(** C2 (amended): the assembler enumerates the paths below [src] whose
    name ends in ".js", not every file.  When the step completes, each of
    these N paths is classified exactly one way by the substring rule: the
    K excluded ones are counted and reported, the N - K others are the
    bundle, the two groups are disjoint, and every path that is not
    excluded is a regular file whose text is written to the same relative
    path under [dist]. *)
Theorem C2_bundle_classification (P : platform) (w : world) (b : bundle) :
  lists_each_once P ->
  (create_cdn_bundle_locals P w).1 = Ok b ->
  let found := src_js_paths (fs w) in
  let N := length found in
  let K := length (excluded found) in
  length (cdn_files b) = N - K
  /\ excluded_count b = K
  /\ excluded_paths b ≡ₚ excluded found
  /\ cdn_files b ≡ₚ map dist_of (included found)
  /\ (forall p, p ∈ found ->
        (p ∈ included found /\ p ∉ excluded_paths b)
        \/ (p ∈ excluded_paths b /\ p ∉ included found))
  /\ (forall p, ~ (p ∈ included found /\ p ∈ excluded found))
  /\ (forall p, p ∈ included found ->
        exists c,
          fs w !! p = Some (File c)
          /\ fs (create_cdn_bundle_locals P w).2 !! dist_of p
             = Some (File (universal_newlines c))).
Proof.
  intros HP Hrun found N K.
  destruct (create_cdn_bundle_locals_inv _ _ _ Hrun) as (f' & Hb & Heq).
  destruct (bundle_of_inv _ _ _ _ Hb) as (Hcopy & Hcf & Hec & Hep & _).
  pose proof (src_files_perm P (fs w) HP) as Hperm. fold found in Hperm.
  pose proof (included_excluded_length found) as Hlen.
  assert (forall p, ~ (p ∈ included found /\ p ∈ excluded found)) as Hdisj.
  { intros p [[_ H1]%elem_of_included [_ H2]%elem_of_excluded]. congruence. }
  split; [|split; [|split; [|split; [|split; [|split]]]]].
  - rewrite Hcf, length_map, (Permutation_length (included_perm _ _ Hperm)).
    unfold N, K. lia.
  - rewrite Hec. apply Permutation_length. by apply excluded_perm.
  - rewrite Hep. by apply excluded_perm.
  - rewrite Hcf. by apply Permutation_map, included_perm.
  - intros p Hp. rewrite Hep, (excluded_perm _ _ Hperm).
    destruct (is_excluded p) eqn:Hex.
    + right. split; [by apply elem_of_excluded|].
      intros [_ H]%elem_of_included. congruence.
    + left. split; [by apply elem_of_included|].
      intros [_ H]%elem_of_excluded. congruence.
  - exact Hdisj.
  - intros p Hp. rewrite Heq. cbn [snd fs].
    rewrite <- (included_perm _ _ Hperm) in Hp.
    destruct (copy_all_spec _ _ _ Hcopy) as (H1 & _).
    destruct (H1 p Hp) as (Hsrc & [c Hc] & Hd).
    rewrite (lookup_with_dist_src _ _ Hsrc) in Hc. exists c. split; [done|].
    rewrite Hd. unfold text_of.
    by rewrite (lookup_with_dist_src _ _ Hsrc), Hc.
Qed.

Lemma universal_newlines_no_cr (s : string) :
  no_cr s = true -> universal_newlines s = s.
Proof.
  induction s as [|c s IH]; [done|]. cbn [no_cr universal_newlines].
  destruct (Ascii.eqb c CR); [done|]. simpl. intros H. by rewrite IH.
Qed.

Lemma sum_list_targets (g h : string -> nat) (l : list string) :
  (forall p, p ∈ l -> g (dist_of p) = h p) ->
  sum_list (map g (map dist_of l)) = sum_list (map h l).
Proof.
  induction l as [|p l IH]; intros H; [done|]. simpl.
  rewrite H by left. rewrite IH; [done|]. intros q Hq. apply H. by right.
Qed.

Lemma budget_warning_printed l b :
  budget_warning ∈ bundle_lines l b <-> budget < total_size b.
Proof.
  unfold bundle_lines, budget_warning.
  rewrite elem_of_cons, !elem_of_app, !elem_of_cons, elem_of_nil.
  unfold warnings. rewrite list_elem_of_fmap.
  destruct (Nat.ltb_spec budget (total_size b)) as [Hlt|Hge].
  - split; [done|]. intros _. right. right. right. left.
  - split; [|lia].
    intros [H|[(p & H & _)|[[H|[H|[H|[]]]]|H]]]; try discriminate H.
    by apply elem_of_nil in H.
Qed.

(** C6: when the bundle step completes, the total is the exact sum of the
    byte sizes of the files it wrote, the copies listed in [cdn_files],
    each holding the text of its source; the over-budget warning is printed
    and when no source holds a carriage return, which text mode would
    rewrite, it is the sum of the sizes of the sources; the over-budget
    warning is printed exactly when the total exceeds 100 KiB; and the step
    returns True whether or not it is over budget.  The step never returns
    False. *)
Theorem C6_bundle_size (P : platform) (w : world) (b : bundle) :
  (create_cdn_bundle_locals P w).1 = Ok b ->
  let w' := (create_cdn_bundle_locals P w).2 in
  total_size b = sum_list (map (file_size (fs w')) (cdn_files b))
  /\ cdn_files b = map dist_of (included (src_files P (fs w)))
  /\ (forall p, p ∈ included (src_files P (fs w)) ->
        fs w' !! dist_of p = Some (File (text_of (fs w) p)))
  /\ ((forall p c, p ∈ included (src_files P (fs w)) ->
         fs w !! p = Some (File c) -> no_cr c = true) ->
      total_size b
      = sum_list (map (file_size (fs w)) (included (src_files P (fs w)))))
  /\ (exists printed,
        out w' = out w ++ printed
        /\ (budget_warning ∈ printed <-> 100 * 1024 < total_size b))
  /\ (create_cdn_bundle P w).1 = Ok true
  /\ (forall (P0 : platform) (w0 : world),
        (create_cdn_bundle P0 w0).1 <> Ok false).
Proof.
  intros Hrun w'. unfold w'.
  destruct (create_cdn_bundle_locals_inv _ _ _ Hrun) as (f' & Hb & Heq).
  destruct (bundle_of_inv _ _ _ _ Hb) as (Hcopy & Hcf & _ & _ & Htot).
  rewrite Heq. cbn [snd fs out].
  destruct (copy_all_spec _ _ _ Hcopy) as (Hspec & _).
  assert (forall p, p ∈ included (src_files P (fs w)) ->
            f' !! dist_of p = Some (File (text_of (fs w) p))) as Hcopies.
  { intros p Hp. destruct (Hspec p Hp) as (Hsrc & _ & Hd). rewrite Hd.
    unfold text_of. by rewrite (lookup_with_dist_src _ _ Hsrc). }
  split; [done|]. split; [done|]. split; [done|].
  split; [|split; [|split]].
  - intros Hcr. rewrite Htot, Hcf. apply sum_list_targets. intros p Hp.
    unfold file_size at 1. rewrite (Hcopies p Hp). unfold text_of, file_size.
    destruct (Hspec p Hp) as (Hsrc & [c Hc] & _).
    rewrite (lookup_with_dist_src _ _ Hsrc) in Hc. rewrite Hc.
    by rewrite (universal_newlines_no_cr c (Hcr p c Hp Hc)).
  - eexists. split; [done|]. apply budget_warning_printed.
  - unfold create_cdn_bundle, mbind, M_bind. by rewrite Heq.
  - intros P0 w0. unfold create_cdn_bundle, mbind, M_bind.
    by destruct (create_cdn_bundle_locals P0 w0) as [[?|?] ?].
Qed.


(** ** The order of enumeration *)

Lemma is_file_copy_fs y f d :
  is_file (copy_fs y f) d = bool_decide (d = dist_of y) || is_file f d.
Proof.
  unfold is_file. rewrite lookup_copy_fs. case_decide as Hd.
  - by rewrite bool_decide_eq_true_2.
  - rewrite bool_decide_eq_false_2 by done. rewrite lookup_add_dirs.
    destruct (f !! d) as [[c|]|]; try done. by case_decide.
Qed.

Lemma no_file_copy_fs ds y f :
  no_file ds (copy_fs y f)
  = no_file ds f && bool_decide (dist_of y ∉ ds).
Proof.
  unfold no_file. induction ds as [|d ds IH]; [done|].
  cbn [forallb]. rewrite IH, is_file_copy_fs.
  destruct (decide (d = dist_of y)) as [->|Hne].
  - rewrite bool_decide_eq_true_2 by done.
    rewrite (bool_decide_eq_false_2 (_ ∉ _ :: _)).
    + simpl. by rewrite !andb_false_r.
    + intros H. apply H. left.
  - rewrite (bool_decide_eq_false_2 (d = _)) by done. simpl.
    assert (bool_decide (dist_of y ∉ d :: ds) = bool_decide (dist_of y ∉ ds))
      as ->.
    { apply bool_decide_ext. rewrite elem_of_cons. intuition congruence. }
    by destruct (negb (is_file f d)), (forallb _ ds).
Qed.

(** What an earlier copy changes for a later one: neither target may lie
    on the way to the other. *)
Lemma copy_ok_after y x f :
  copy_ok y f = true -> x <> y ->
  copy_ok x (copy_fs y f)
  = copy_ok x f
    && bool_decide (dist_of y ∉ parents (dist_of x))
    && bool_decide (dist_of x ∉ parents (dist_of y)).
Proof.
  intros Hy Hne. pose proof (copy_ok_src _ _ Hy) as Hysrc.
  unfold copy_ok at 1 2. destruct (startswith "src/" x) eqn:Hxsrc; [|done].
  cbn [andb]. rewrite no_file_copy_fs.
  assert (is_file (copy_fs y f) x = is_file f x) as ->.
  { unfold is_file. rewrite copy_fs_src_side; [done|].
    by rewrite (first_char_src _ Hxsrc). }
  assert (dist_of x <> dist_of y) as Ht
    by (intros H; by apply Hne, dist_of_inj).
  assert (negb (is_dir (copy_fs y f) (dist_of x))
          = negb (is_dir f (dist_of x))
            && bool_decide (dist_of x ∉ parents (dist_of y))) as ->.
  { unfold is_dir. rewrite lookup_copy_fs, decide_False by done.
    rewrite lookup_add_dirs.
    destruct (f !! dist_of x) as [[c|]|] eqn:Hl; simpl.
    - rewrite bool_decide_eq_true_2; [done|]. intros Hin.
      unfold copy_ok in Hy.
      apply andb_true_iff in Hy as [Hy _]. apply andb_true_iff in Hy as [Hy _].
      apply andb_true_iff in Hy as [_ Hy].
      pose proof (no_file_lookup _ _ _ Hy Hin) as Hf.
      unfold is_file in Hf. by rewrite Hl in Hf.
    - done.
    - case_decide as Hin.
      + by rewrite bool_decide_eq_false_2 by (intros H; by apply H).
      + by rewrite bool_decide_eq_true_2. }
  destruct (no_file _ f), (is_file f x), (is_dir f (dist_of x)),
    (bool_decide (dist_of y ∉ _)), (bool_decide (dist_of x ∉ _)); done.
Qed.

Lemma copy_fs_comm x y f :
  startswith "src/" x = true -> startswith "src/" y = true -> x <> y ->
  copy_fs x (copy_fs y f) = copy_fs y (copy_fs x f).
Proof.
  intros Hx Hy Hne.
  assert (dist_of x <> dist_of y) as Ht
    by (intros H; by apply Hne, dist_of_inj).
  apply map_eq. intros q.
  rewrite !lookup_copy_fs, !lookup_add_dirs, !lookup_copy_fs,
    !lookup_add_dirs, !text_of_copy_fs by done.
  destruct (decide (q = dist_of x)) as [Hqx|Hqx],
    (decide (q = dist_of y)) as [Hqy|Hqy]; try done; [congruence|].
  destruct (f !! q); [done|].
  destruct (decide (q ∈ parents (dist_of x))),
    (decide (q ∈ parents (dist_of y))); done.
Qed.

(** Two turns of the loop can be exchanged. *)
Lemma copy_all_swap x y l f :
  copy_all (x :: y :: l) f = copy_all (y :: x :: l) f.
Proof.
  destruct (decide (x = y)) as [->|Hne]; [done|].
  cbn [copy_all].
  destruct (is_excluded x) eqn:Hex, (is_excluded y) eqn:Hey; try done.
  destruct (copy_ok x f) eqn:Hx, (copy_ok y f) eqn:Hy.
  - rewrite (copy_ok_after x y f Hx) by done.
    rewrite (copy_ok_after y x f Hy) by done.
    rewrite Hx, Hy. cbn [andb].
    rewrite (copy_fs_comm x y f)
      by (eauto using copy_ok_src).
    destruct (bool_decide (dist_of x ∉ _)), (bool_decide (dist_of y ∉ _));
      done.
  - destruct (copy_ok y (copy_fs x f)) eqn:Hy'; [|done].
    rewrite (copy_ok_after x y f Hx) in Hy' by done.
    by rewrite Hy in Hy'.
  - destruct (copy_ok x (copy_fs y f)) eqn:Hx'; [|done].
    rewrite (copy_ok_after y x f Hy) in Hx' by done.
    by rewrite Hx in Hx'.
  - done.
Qed.

(** Whether the loop goes well, and the tree it leaves, do not depend on
    the order of the enumeration. *)
Lemma copy_all_perm l1 l2 f :
  l1 ≡ₚ l2 -> copy_all l1 f = copy_all l2 f.
Proof.
  intros Hp. revert f.
  induction Hp as [|x l1 l2 _ IH|x y l|l1 l2 l3 _ IH1 _ IH2]; intros f.
  - done.
  - cbn [copy_all]. destruct (is_excluded x); [apply IH|].
    destruct (copy_ok x f); [apply IH | done].
  - apply copy_all_swap.
  - by rewrite IH1.
Qed.

(** C9: for a fixed tree, take two platforms that list directory entries
    in any two orders.  When the bundle step completes under the first it
    completes under the second, with the same files in the bundle, the
    same excluded paths, the same excluded count, the same total size and
    the same resulting tree. *)
Theorem C9_enumeration_order (P1 P2 : platform) (w : world) (b1 : bundle) :
  lists_each_once P1 ->
  lists_each_once P2 ->
  (create_cdn_bundle_locals P1 w).1 = Ok b1 ->
  exists b2,
    (create_cdn_bundle_locals P2 w).1 = Ok b2
    /\ cdn_files b1 ≡ₚ cdn_files b2
    /\ excluded_paths b1 ≡ₚ excluded_paths b2
    /\ excluded_count b1 = excluded_count b2
    /\ total_size b1 = total_size b2
    /\ fs (create_cdn_bundle_locals P1 w).2
       = fs (create_cdn_bundle_locals P2 w).2.
Proof.
  intros H1 H2 Hrun.
  destruct (create_cdn_bundle_locals_inv _ _ _ Hrun) as (f' & Hb & Heq).
  destruct (bundle_of_inv _ _ _ _ Hb) as (Hcopy & Hcf & Hec & Hep & Htot).
  assert (src_files P1 (fs w) ≡ₚ src_files P2 (fs w)) as Hperm.
  { etrans; [by apply src_files_perm|]. symmetry. by apply src_files_perm. }
  rewrite (copy_all_perm _ _ _ Hperm) in Hcopy.
  assert (is_file (fs w) "dist" = false) as Hd.
  { unfold bundle_of in Hb. by destruct (is_file (fs w) "dist"). }
  set (l2 := src_files P2 (fs w)) in *.
  set (b2 := Bundle (map dist_of (included l2)) (length (excluded l2))
               (excluded l2)
               (sum_list (map (file_size f') (map dist_of (included l2))))).
  assert (bundle_of P2 (fs w) = Some (b2, f')) as Hb2.
  { unfold bundle_of. rewrite Hd. fold l2. by rewrite Hcopy. }
  exists b2. rewrite (create_cdn_bundle_locals_ok _ _ _ _ Hb2), Heq.
  assert (cdn_files b1 ≡ₚ cdn_files b2) as Hcfp.
  { rewrite Hcf. by apply Permutation_map, included_perm. }
  split; [done|]. split; [done|]. split; [|split; [|split]].
  - rewrite Hep. by apply excluded_perm.
  - rewrite Hec. by apply Permutation_length, excluded_perm.
  - rewrite Htot. cbn [total_size b2]. fold (cdn_files b2).
    apply (sum_list_with_Permutation_proper id). by apply Permutation_map.
  - done.
Qed.

(* ================================================================== *)
(** * Steps that only read *)
(* ================================================================== *)

Lemma keeps_fs_ret {A} (a : A) : keeps_fs (mret a).
Proof. by intros w. Qed.

Lemma keeps_fs_bind {A B} (m : M A) (k : A -> M B) :
  keeps_fs m -> (forall a, keeps_fs (k a)) -> keeps_fs (m ≫= k).
Proof.
  intros Hm Hk w. unfold mbind, M_bind. specialize (Hm w).
  destruct (m w) as [[a|e] w']; simpl in *; [|done].
  by rewrite (Hk a w').
Qed.

Lemma keeps_fs_log message color : keeps_fs (log message color).
Proof. by intros w. Qed.

Lemma keeps_fs_os_path_exists p : keeps_fs (os_path_exists p).
Proof. by intros w. Qed.

Lemma keeps_fs_read_text p : keeps_fs (read_text p).
Proof. intros w. unfold read_text. by destruct (fs w !! p) as [[c|]|]. Qed.

Lemma keeps_fs_if {A} (b : bool) (m1 m2 : M A) :
  keeps_fs m1 -> keeps_fs m2 -> keeps_fs (if b then m1 else m2).
Proof. by destruct b. Qed.

Lemma keeps_fs_for_in {A S} (l : list A) (body : A -> S -> M S) s :
  (forall x s, keeps_fs (body x s)) -> keeps_fs (for_in l body s).
Proof.
  intros Hb. revert s. induction l as [|x l IH]; intros s; simpl.
  - apply keeps_fs_ret.
  - apply keeps_fs_bind; [apply Hb | apply IH].
Qed.

Ltac keeps :=
  repeat first
    [ apply keeps_fs_ret | apply keeps_fs_log | apply keeps_fs_os_path_exists
    | apply keeps_fs_read_text
    | apply keeps_fs_bind; [|intros ?]
    | apply keeps_fs_if
    | apply keeps_fs_for_in; intros ? ? ].

Lemma keeps_fs_log_test name passed details :
  keeps_fs (log_test name passed details).
Proof. unfold log_test. cbv zeta. keeps. Qed.

Lemma keeps_fs_validate manifest : keeps_fs (validate_source_files_of manifest).
Proof.
  unfold validate_source_files_of, log_header, log_error, log_success. keeps.
Qed.

Lemma keeps_fs_xss : keeps_fs test_xss_protection.
Proof.
  unfold test_xss_protection, log_header, log_error. cbv zeta.
  keeps; apply keeps_fs_log_test.
Qed.

Lemma keeps_fs_sql : keeps_fs test_sql_injection_protection.
Proof.
  unfold test_sql_injection_protection, log_header, log_error. cbv zeta.
  keeps; apply keeps_fs_log_test.
Qed.

Lemma keeps_fs_jwt P : keeps_fs (test_jwt_security P).
Proof.
  unfold test_jwt_security, log_header, log_error. cbv zeta.
  keeps; apply keeps_fs_log_test.
Qed.

Lemma keeps_fs_cors : keeps_fs test_cors_configuration.
Proof.
  unfold test_cors_configuration, log_header, log_error. cbv zeta.
  keeps; apply keeps_fs_log_test.
Qed.

Lemma keeps_fs_routes : keeps_fs test_routes.
Proof.
  unfold test_routes, log_header. cbv zeta.
  keeps; apply keeps_fs_log_test.
Qed.

(* ================================================================== *)
(** * Excluded files and the manifest *)
(* ================================================================== *)

(** A directory above a path is the part of the path before one of its
    slashes. *)
Lemma parents_from_split (pre s d : string) :
  d ∈ parents_from pre s ->
  exists t u, s = t +:+ "/" +:+ u /\ d = pre +:+ t.
Proof.
  revert pre. induction s as [|c s IH]; intros pre; simpl.
  - intros H. by apply elem_of_nil in H.
  - destruct (Ascii.eqb_spec c "/") as [->|Hc].
    + rewrite elem_of_app. intros [H | H].
      * destruct (String.eqb pre ""); [by apply elem_of_nil in H|].
        apply list_elem_of_singleton in H as ->. exists "", s. split; [done|].
        clear. induction pre as [|x pre IH]; [done|].
        by rewrite append_cons, <- IH.
      * destruct (IH _ H) as (t & u & -> & ->).
        exists ("/" +:+ t), u. split; [reflexivity|]. by rewrite append_assoc.
    + intros H. destruct (IH _ H) as (t & u & -> & ->).
      exists (String c t), u. split; [reflexivity|].
      rewrite append_assoc. reflexivity.
Qed.

(** A path that has an excluded path as one of its directories is itself
    excluded, and so is every path with an excluded target. *)
Lemma excluded_above (e p : string) :
  e ∈ EXCLUDED_FROM_CDN ->
  startswith "src/" p = true ->
  dist_of e = dist_of p \/ dist_of e ∈ parents (dist_of p) ->
  is_excluded p = true.
Proof.
  intros He Hp H. unfold is_excluded. apply existsb_exists.
  exists e. split; [by apply list_elem_of_In|].
  apply str_in_true_iff.
  assert (startswith "src/" e = true) as Hes.
  { apply elem_of_cons in He as [->|He]; [done|].
    apply list_elem_of_singleton in He as ->. done. }
  pose proof (startswith_src _ Hp) as Ep.
  pose proof (startswith_src _ Hes) as Ee.
  rewrite parents_dist_of in H. unfold dist_of in H.
  remember (str_drop 4 p) as rp eqn:Hrp.
  remember (str_drop 4 e) as re eqn:Hre. clear Hrp Hre. subst e p.
  destruct H as [H|H].
  - injection H as H. change (re = rp) in H. subst re. exists "", "".
    by rewrite append_nil_l, append_nil_r.
  - apply elem_of_cons in H as [H|H]; [discriminate H|].
    apply parents_from_split in H as (t & u & -> & Hd).
    injection Hd as Hd. change (re = t) in Hd. subst re.
    exists "", ("/" +:+ u). by rewrite append_nil_l, !append_assoc.
Qed.

(** The loop changes the tree only at the targets of the copied paths and
    at the directories above them. *)
Lemma copy_all_untouched l f f' q :
  copy_all l f = Some f' ->
  (forall p, p ∈ included l ->
     q <> dist_of p /\ q ∉ parents (dist_of p)) ->
  f' !! q = f !! q.
Proof.
  revert f. induction l as [|x l IH]; intros f; cbn [copy_all].
  - by intros [= <-].
  - rewrite included_cons. destruct (is_excluded x) eqn:Hex.
    + apply IH.
    + destruct (copy_ok x f) eqn:Hok; [|done]. intros H Hq.
      rewrite (IH _ H) by (intros p Hp; apply Hq; by right).
      destruct (Hq x) as [Hne Hout]; [left|].
      rewrite lookup_copy_fs, decide_False by done.
      by apply lookup_add_dirs_other.
Qed.

Lemma excluded_in_manifest (e : string) :
  e ∈ EXCLUDED_FROM_CDN -> e ∈ required_files.
Proof.
  intros He. apply list_elem_of_In in He. apply list_elem_of_In.
  simpl in *. intuition.
Qed.

(** The bundle step does not write to the target of an excluded path. *)
Lemma excluded_never_copied P w b e :
  (create_cdn_bundle_locals P w).1 = Ok b ->
  e ∈ EXCLUDED_FROM_CDN ->
  (dist_of e ∉ cdn_files b)
  /\ fs (create_cdn_bundle_locals P w).2 !! dist_of e = fs w !! dist_of e.
Proof.
  intros Hrun He.
  destruct (create_cdn_bundle_locals_inv _ _ _ Hrun) as (f' & Hb & Heq).
  destruct (bundle_of_inv _ _ _ _ Hb) as (Hcopy & Hcf & _).
  destruct (copy_all_spec _ _ _ Hcopy) as (Hspec & _).
  assert (forall p, p ∈ included (src_files P (fs w)) ->
            dist_of e <> dist_of p /\ dist_of e ∉ parents (dist_of p)) as Hfar.
  { intros p Hp. destruct (Hspec p Hp) as (Hsrc & _).
    apply elem_of_included in Hp as [_ Hpe].
    split; intros H;
      [pose proof (excluded_above e p He Hsrc (or_introl H))
      |pose proof (excluded_above e p He Hsrc (or_intror H))]; congruence. }
  split.
  - rewrite Hcf. intros (p & Hd & Hp)%list_elem_of_fmap.
    by destruct (Hfar p Hp).
  - rewrite Heq. cbn [snd fs].
    rewrite (copy_all_untouched _ _ _ _ Hcopy Hfar).
    apply lookup_add_dirs_other. intros H%list_elem_of_singleton.
    unfold dist_of in H. discriminate H.
Qed.

Lemma validate_pass (manifest : list string) (w : world) :
  (validate_source_files_of manifest w).1 = Ok true ->
  forall p, p ∈ manifest -> is_Some (fs w !! p).
Proof.
  rewrite validate_source_files_of_run. cbn [fst]. intros Hok p Hp.
  destruct (fs w !! p) eqn:Hl; [by eexists|].
  assert (p ∈ missing_of (fs w) manifest) as Hin.
  { unfold missing_of. apply list_elem_of_filter. split; [|done].
    rewrite Hl. by intros [? ?]. }
  destruct (missing_of (fs w) manifest);
    [by apply elem_of_nil in Hin | discriminate Hok].
Qed.

Lemma main_success (P : platform) (w : world) :
  (main P w).1 = Ok true -> is_Some (passing (steps P) (banner w)).
Proof.
  unfold main. generalize (steps P). intros l.
  unfold mbind, M_bind. pose proof (main_of_run l w) as Hm.
  destruct (main_of l w) as [r w']. cbn [fst] in Hm. subst r.
  cbn [fst snd mret M_ret]. intros H. apply passing_outcomes.
  by injection H.
Qed.

Lemma passing_cons_inv (name : string) (func : M bool) (rest : list step)
    (w wend : world) :
  passing ((name, func) :: rest) w = Some wend ->
  exists w', func w = (Ok true, w') /\ passing rest w' = Some wend.
Proof.
  cbn [passing snd].
  destruct (func w) as [[[|]|e] w']; try done. by exists w'.
Qed.

Lemma passing_cons_intro (name : string) (func : M bool) (rest : list step)
    (w w' : world) :
  func w = (Ok true, w') ->
  passing ((name, func) :: rest) w = passing rest w'.
Proof. cbn [passing snd]. by intros ->. Qed.

Lemma validate_source_files_unfold :
  validate_source_files = validate_source_files_of required_files.
Proof. reflexivity. Qed.

(** The worlds a successful run goes through up to the bundle step. *)
Lemma steps_passing_inv (P : platform) (w wend : world) :
  passing (steps P) w = Some wend ->
  exists w1 w2 w3 w4 w5 w6 w7 w8,
    validate_github_token P w = (Ok true, w1)
    /\ validate_source_files w1 = (Ok true, w2)
    /\ test_xss_protection w2 = (Ok true, w3)
    /\ test_sql_injection_protection w3 = (Ok true, w4)
    /\ test_jwt_security P w4 = (Ok true, w5)
    /\ test_cors_configuration w5 = (Ok true, w6)
    /\ test_routes w6 = (Ok true, w7)
    /\ create_cdn_bundle P w7 = (Ok true, w8).
Proof.
  unfold steps. intros H.
  apply passing_cons_inv in H as (w1 & H1 & H).
  apply passing_cons_inv in H as (w2 & H2 & H).
  apply passing_cons_inv in H as (w3 & H3 & H).
  apply passing_cons_inv in H as (w4 & H4 & H).
  apply passing_cons_inv in H as (w5 & H5 & H).
  apply passing_cons_inv in H as (w6 & H6 & H).
  apply passing_cons_inv in H as (w7 & H7 & H).
  apply passing_cons_inv in H as (w8 & H8 & _).
  exists w1, w2, w3, w4, w5, w6, w7, w8.
  repeat split; assumption.
Qed.

Lemma steps_passing_prefix (P : platform) (w w1 w2 w3 w4 w5 w6 w7 : world) :
  validate_github_token P w = (Ok true, w1) ->
  validate_source_files w1 = (Ok true, w2) ->
  test_xss_protection w2 = (Ok true, w3) ->
  test_sql_injection_protection w3 = (Ok true, w4) ->
  test_jwt_security P w4 = (Ok true, w5) ->
  test_cors_configuration w5 = (Ok true, w6) ->
  test_routes w6 = (Ok true, w7) ->
  passing (take 1 (steps P)) w = Some w1
  /\ passing (take 7 (steps P)) w = Some w7.
Proof.
  intros H1 H2 H3 H4 H5 H6 H7. unfold steps. cbn [take]. split.
  - rewrite (passing_cons_intro _ _ _ w w1) by exact H1. reflexivity.
  - rewrite (passing_cons_intro _ _ _ w w1) by exact H1.
    rewrite (passing_cons_intro _ _ _ w1 w2) by exact H2.
    rewrite (passing_cons_intro _ _ _ w2 w3) by exact H3.
    rewrite (passing_cons_intro _ _ _ w3 w4) by exact H4.
    rewrite (passing_cons_intro _ _ _ w4 w5) by exact H5.
    rewrite (passing_cons_intro _ _ _ w5 w6) by exact H6.
    rewrite (passing_cons_intro _ _ _ w6 w7) by exact H7. reflexivity.
Qed.

Lemma create_cdn_bundle_passed (P : platform) (w w' : world) :
  create_cdn_bundle P w = (Ok true, w') ->
  exists b, (create_cdn_bundle_locals P w).1 = Ok b.
Proof.
  unfold create_cdn_bundle, mbind, M_bind.
  destruct (create_cdn_bundle_locals P w) as [[b|e] w'']; [|done].
  intros _. by exists b.
Qed.

(** The checks between the inventory and the bundle step only read. *)
Lemma checks_keep_fs (P : platform) (w1 w2 w3 w4 w5 w6 w7 : world) :
  validate_source_files w1 = (Ok true, w2) ->
  test_xss_protection w2 = (Ok true, w3) ->
  test_sql_injection_protection w3 = (Ok true, w4) ->
  test_jwt_security P w4 = (Ok true, w5) ->
  test_cors_configuration w5 = (Ok true, w6) ->
  test_routes w6 = (Ok true, w7) ->
  fs w7 = fs w1.
Proof.
  intros H2 H3 H4 H5 H6 H7.
  pose proof (keeps_fs_validate required_files w1) as K2.
  pose proof (keeps_fs_xss w2) as K3.
  pose proof (keeps_fs_sql w3) as K4.
  pose proof (keeps_fs_jwt P w4) as K5.
  pose proof (keeps_fs_cors w5) as K6.
  pose proof (keeps_fs_routes w6) as K7.
  rewrite validate_source_files_unfold in H2.
  rewrite H2 in K2. rewrite H3 in K3. rewrite H4 in K4.
  rewrite H5 in K5. rewrite H6 in K6. rewrite H7 in K7.
  cbn [snd] in *. by rewrite K7, K6, K5, K4, K3, K2.
Qed.

(** C10: both paths of the exclusion list are in the manifest of required
    files.  So the inventory step passes only on a tree where the excluded
    files exist; and in a run of the script that succeeds they exist when
    the inventory is taken, the checks that follow leave the tree as it
    is, and the bundle step, which runs on that tree, neither lists their
    targets in the bundle nor writes to them. *)
Theorem C10_excluded_files_are_required (P : platform) (w : world) :
  (forall e, e ∈ EXCLUDED_FROM_CDN -> e ∈ required_files)
  /\ (forall w0,
        (validate_source_files w0).1 = Ok true ->
        forall e, e ∈ EXCLUDED_FROM_CDN -> is_Some (fs w0 !! e))
  /\ ((main P w).1 = Ok true ->
      exists (w1 w7 : world) (b : bundle),
        passing (take 1 (steps P)) (banner w) = Some w1
        /\ passing (take 7 (steps P)) (banner w) = Some w7
        /\ fs w7 = fs w1
        /\ (create_cdn_bundle_locals P w7).1 = Ok b
        /\ (forall e, e ∈ EXCLUDED_FROM_CDN ->
              is_Some (fs w1 !! e)
              /\ (dist_of e ∉ cdn_files b)
              /\ fs (create_cdn_bundle_locals P w7).2 !! dist_of e
                 = fs w7 !! dist_of e)).
Proof.
  split; [exact excluded_in_manifest|]. split.
  - intros w0 Hok e He. rewrite validate_source_files_unfold in Hok.
    apply (validate_pass _ _ Hok). by apply excluded_in_manifest.
  - intros [wend Hpass]%main_success.
    apply steps_passing_inv in Hpass
      as (w1 & w2 & w3 & w4 & w5 & w6 & w7 & w8
          & H1 & H2 & H3 & H4 & H5 & H6 & H7 & H8).
    exists w1, w7.
    destruct (create_cdn_bundle_passed P w7 w8 H8) as [b Hb]. exists b.
    destruct (steps_passing_prefix P _ _ _ _ _ _ _ _ H1 H2 H3 H4 H5 H6 H7)
      as [Hp1 Hp7].
    split; [exact Hp1|]. split; [exact Hp7|].
    split; [exact (checks_keep_fs P _ _ _ _ _ _ _ H2 H3 H4 H5 H6 H7)|].
    split; [exact Hb|].
    intros e He. split.
    + rewrite validate_source_files_unfold in H2.
      assert ((validate_source_files_of required_files w1).1 = Ok true)
        as Hok by (by rewrite H2).
      apply (validate_pass _ _ Hok). by apply excluded_in_manifest.
    + by apply excluded_never_copied.
Qed.

(* ================================================================== *)
(** * The properties at work *)
(* ================================================================== *)

(** On [release_tree] every step passes and the script exits with 0; the
    bundle holds sixteen files, and the two plugin templates are left
    out. *)
Example script_release_tree :
  (script quiet_platform release_tree).1 = Ok 0
  /\ (main_of (steps quiet_platform) release_tree).1
     = Ok (passed_pairs (steps quiet_platform), true)
  /\ is_Some (fs (script quiet_platform release_tree).2 !! "dist/index.js")
  /\ fs (script quiet_platform release_tree).2 !! "dist/plugins/vue.js" = None.
Proof. vm_compute. repeat split; by eexists. Qed.

(** On [small_tree] the inventory fails and the script exits with 1 after
    two steps. *)
Example script_small_tree :
  (script quiet_platform small_tree).1 = Ok 1
  /\ (main_of (steps quiet_platform) small_tree).1
     = Ok ([("GitHub Token Validation", true);
            ("Source File Validation", false)], false).
Proof. by vm_compute. Qed.

(** Steps A (passes), B (fails), C: the result holds A and B, and C's line
    is not printed. *)
Example run_a_f_c :
  run_steps [step_a; step_f; step_c] [] (tree [])
  = (Ok ([("A", true); ("B", false)], Some false),
     World ∅
       [Entry FAIL [Lit "❌ "; Lit "❌ Step failed: "; Str "B"];
        Entry OKBLUE [Lit "Build aborted due to failure."]]).
Proof. reflexivity. Qed.

(** The hardcoded-secret pattern on a sample text. *)
Example count_secret_sample :
  count_secret 0 "const SECRET = 'abc'; secret=x; secret  =  'a secret = 'b'"
  = 2.
Proof. reflexivity. Qed.

(** C2 as stated fails on [small_tree]: of the six regular files below
    [src], two match an exclusion rule, and the step completes with three
    files in the bundle, not four; the read-me, which no rule excludes, is
    neither enumerated nor copied.  And on [blocked_tree] the step raises,
    so the one file that is not excluded is not copied. *)
Lemma C2_not_every_file_is_bundled :
  let r := create_cdn_bundle_locals quiet_platform small_tree in
  let every := files_below_src (fs small_tree) in
  (length every = 6 /\ length (excluded every) = 2)
  /\ r.1 = Ok (Bundle
                 ["dist/core/Router.js"; "dist/utils/jwt.js"; "dist/index.js"]
                 2 ["src/plugins/vue.js"; "src/plugins/react.js"] 46)
  /\ (forall b, r.1 = Ok b ->
        length (cdn_files b) <> length every - length (excluded every))
  /\ ("src/README.md" ∈ every
      /\ is_excluded "src/README.md" = false
      /\ fs r.2 !! "dist/README.md" = None)
  /\ (create_cdn_bundle_locals quiet_platform blocked_tree).1
     = Raise IsADirectoryError.
Proof.
  cbv zeta. split; [by vm_compute|]. split; [by vm_compute|].
  split; [intros b; vm_compute; intros [= <-]; simpl; lia|].
  split; [|by vm_compute].
  split; [|by vm_compute]. apply list_elem_of_In. vm_compute. tauto.
Qed.

Lemma quiet_lists_each_once : lists_each_once quiet_platform.
Proof. intros l. reflexivity. Qed.

Lemma reversed_lists_each_once : lists_each_once reversed_platform.
Proof. intros l. symmetry. apply Permutation_rev. Qed.

(** C2 on [small_tree]. *)
Lemma C2_small_tree :
  let b := Bundle
             ["dist/core/Router.js"; "dist/utils/jwt.js"; "dist/index.js"]
             2 ["src/plugins/vue.js"; "src/plugins/react.js"] 46 in
  let found := src_js_paths (fs small_tree) in
  length (cdn_files b) = length found - length (excluded found)
  /\ excluded_count b = length (excluded found)
  /\ excluded_paths b ≡ₚ excluded found
  /\ cdn_files b ≡ₚ map dist_of (included found)
  /\ (forall p, p ∈ found ->
        (p ∈ included found /\ p ∉ excluded_paths b)
        \/ (p ∈ excluded_paths b /\ p ∉ included found))
  /\ (forall p, ~ (p ∈ included found /\ p ∈ excluded found))
  /\ (forall p, p ∈ included found ->
        exists c,
          fs small_tree !! p = Some (File c)
          /\ fs (create_cdn_bundle_locals quiet_platform small_tree).2
               !! dist_of p
             = Some (File (universal_newlines c))).
Proof.
  apply (C2_bundle_classification quiet_platform small_tree).
  - exact quiet_lists_each_once.
  - vm_compute. reflexivity.
Defined.

(** C6 on [small_tree]: 46 bytes in three files, no warning. *)
Lemma C6_small_tree :
  let b := Bundle
             ["dist/core/Router.js"; "dist/utils/jwt.js"; "dist/index.js"]
             2 ["src/plugins/vue.js"; "src/plugins/react.js"] 46 in
  let w' := (create_cdn_bundle_locals quiet_platform small_tree).2 in
  total_size b = sum_list (map (file_size (fs w')) (cdn_files b))
  /\ cdn_files b
     = map dist_of (included (src_files quiet_platform (fs small_tree)))
  /\ (forall p, p ∈ included (src_files quiet_platform (fs small_tree)) ->
        fs w' !! dist_of p = Some (File (text_of (fs small_tree) p)))
  /\ ((forall p c,
         p ∈ included (src_files quiet_platform (fs small_tree)) ->
         fs small_tree !! p = Some (File c) -> no_cr c = true) ->
      total_size b
      = sum_list (map (file_size (fs small_tree))
                    (included (src_files quiet_platform (fs small_tree)))))
  /\ (exists printed,
        out w' = out small_tree ++ printed
        /\ (budget_warning ∈ printed <-> 100 * 1024 < total_size b))
  /\ (create_cdn_bundle quiet_platform small_tree).1 = Ok true
  /\ (forall (P0 : platform) (w0 : world),
        (create_cdn_bundle P0 w0).1 <> Ok false).
Proof.
  apply (C6_bundle_size quiet_platform small_tree).
  vm_compute. reflexivity.
Defined.

(** C7 on the steps A, B, C: B raises, C is not run. *)
Lemma C7_steps_a_b_c :
  run_steps [step_a; step_b; step_c] [] (tree [])
  = (Ok ([("A", true); ("B", false)], Some false),
     add_lines
       [Entry FAIL
          [Lit "❌ "; Lit "❌ Exception in "; Str "B"; Lit ": ";
           ExnStr (OtherError "boom")]]
       (tree []))
  /\ (forall post' : list step,
        run_steps ([step_a] ++ step_b :: post') [] (tree [])
        = run_steps ([step_a] ++ step_b :: [step_c]) [] (tree [])).
Proof.
  apply (C7_exception_becomes_failure [step_a] step_b [step_c]
           (tree []) (tree []) (tree []) (OtherError "boom"));
    reflexivity.
Defined.

(** C9 on [small_tree], listed forwards and backwards. *)
Lemma C9_small_tree :
  exists b2,
    (create_cdn_bundle_locals reversed_platform small_tree).1 = Ok b2
    /\ ["dist/core/Router.js"; "dist/utils/jwt.js"; "dist/index.js"]
       ≡ₚ cdn_files b2
    /\ ["src/plugins/vue.js"; "src/plugins/react.js"] ≡ₚ excluded_paths b2
    /\ 2 = excluded_count b2
    /\ 46 = total_size b2
    /\ fs (create_cdn_bundle_locals quiet_platform small_tree).2
       = fs (create_cdn_bundle_locals reversed_platform small_tree).2.
Proof.
  apply (C9_enumeration_order quiet_platform reversed_platform small_tree
           (Bundle
              ["dist/core/Router.js"; "dist/utils/jwt.js"; "dist/index.js"]
              2 ["src/plugins/vue.js"; "src/plugins/react.js"] 46)).
  - exact quiet_lists_each_once.
  - exact reversed_lists_each_once.
  - vm_compute. reflexivity.
Defined.

(* ================================================================== *)
(** * The other heuristic checks *)
(* ================================================================== *)

Lemma occurs_in_longer (a b hay : string) :
  occurs_in (a +:+ b) hay -> occurs_in b hay.
Proof.
  intros (before & after & ->). exists (before +:+ a), after.
  by rewrite !append_assoc.
Qed.

Lemma test_xss_protection_file (c : string) f o :
  let text := universal_newlines c in
  (test_xss_protection (with_file "src/utils/validation.js" c f o)).1
  = Ok ((str_in "function sanitize" text
         || str_in "export function sanitize" text)
        && (str_in "&lt;" text || str_in "replace(/</g" text)).
Proof. unfold test_xss_protection. by run_check. Qed.

Lemma test_cors_configuration_file (c : string) f o :
  let text := universal_newlines c in
  (test_cors_configuration (with_file "src/core/Router.js" c f o)).1
  = Ok (str_in "cors" (lower text) || str_in "origin" (lower text)).
Proof. unfold test_cors_configuration. by run_check. Qed.

Lemma test_routes_file (c : string) f o :
  let text := universal_newlines c in
  (test_routes (with_file "src/core/Router.js" c f o)).1
  = Ok (str_in "define" text && str_in "route" (lower text)
        && (str_in "try" text && str_in "catch" text)
        && (str_in "404" text || str_in "not found" (lower text))).
Proof. unfold test_routes. by run_check. Qed.

(** X1: on every validation artifact the sanitization check passes exactly
    when the text read from it contains "function sanitize" and contains
    "&lt;" or "replace(/</g".  The alternative "export function sanitize"
    adds nothing, and the script-tag sub-check does not enter the
    verdict. *)
Theorem X1_sanitization_check_gating (c : string) f o :
  let text := universal_newlines c in
  let w := with_file "src/utils/validation.js" c f o in
  ((test_xss_protection w).1 = Ok true
   <-> occurs_in "function sanitize" text
       /\ (occurs_in "&lt;" text \/ occurs_in "replace(/</g" text))
  /\ ((test_xss_protection w).1 = Ok true
      \/ (test_xss_protection w).1 = Ok false).
Proof.
  intros text w. unfold w. rewrite test_xss_protection_file. fold text.
  assert (str_in "export function sanitize" text = true ->
          str_in "function sanitize" text = true) as Hexp.
  { rewrite !str_in_true_iff. apply (occurs_in_longer "export "). }
  rewrite <- !str_in_true_iff.
  destruct (str_in "function sanitize" text),
    (str_in "export function sanitize" text),
    (str_in "&lt;" text), (str_in "replace(/</g" text);
    simpl in *; split; try (by auto); split; try tauto; try congruence;
    try (intros _; split; auto); try (intros [? [?|?]]; congruence).
  all: specialize (Hexp eq_refl); congruence.
Qed.

(** X2: on every routing artifact the cross-origin check passes exactly
    when the text read from it, lowered, contains "cors" or "origin"; the
    wildcard sub-check does not enter the verdict. *)
Theorem X2_cross_origin_check_gating (c : string) f o :
  let text := universal_newlines c in
  let w := with_file "src/core/Router.js" c f o in
  ((test_cors_configuration w).1 = Ok true
   <-> occurs_in "cors" (lower text) \/ occurs_in "origin" (lower text))
  /\ ((test_cors_configuration w).1 = Ok true
      \/ (test_cors_configuration w).1 = Ok false).
Proof.
  intros text w. unfold w. rewrite test_cors_configuration_file. fold text.
  rewrite <- !str_in_true_iff.
  destruct (str_in "cors" (lower text)), (str_in "origin" (lower text));
    simpl; split; auto; split; auto; try congruence; intros [?|?]; congruence.
Qed.

(** X3: on every routing artifact the routing-surface check passes exactly
    when the text read from it contains "define", "try" and "catch",
    contains "route" in any case, and contains "404" or, in any case,
    "not found".  The five HTTP-verb sub-checks, the path-parameter
    sub-check and the middleware sub-check do not enter the verdict. *)
Theorem X3_routing_check_gating (c : string) f o :
  let text := universal_newlines c in
  let w := with_file "src/core/Router.js" c f o in
  ((test_routes w).1 = Ok true
   <-> (occurs_in "define" text /\ occurs_in "route" (lower text))
       /\ (occurs_in "try" text /\ occurs_in "catch" text)
       /\ (occurs_in "404" text \/ occurs_in "not found" (lower text)))
  /\ ((test_routes w).1 = Ok true \/ (test_routes w).1 = Ok false).
Proof.
  intros text w. unfold w. rewrite test_routes_file. fold text.
  rewrite <- !str_in_true_iff.
  destruct (str_in "define" text), (str_in "route" (lower text)),
    (str_in "try" text), (str_in "catch" text), (str_in "404" text),
    (str_in "not found" (lower text));
    simpl; split; auto; split; try tauto; try congruence;
    try (intros ([] & [] & [|]); congruence).
Qed.

(** Running a check on a world whose artifact does not exist. *)
Ltac run_missing :=
  unfold without_file, os_path_exists, read_text,
    log_test, log_header, log_error, log;
  repeat (progress (unfold mbind, M_bind, mret, M_ret;
                    cbn; rewrite ?lookup_delete_eq)).

(** X4: when its artifact does not exist, each of the four checks that
    test for it first (sanitization, injection, token, cross-origin)
    returns False, leaves the tree alone and ends its output with the
    not-found line; the routing check, which opens the file without
    testing, raises FileNotFoundError. *)
Theorem X4_missing_artifact (P : platform) f o :
  let gone p := without_file p f o in
  let fails (r : res bool * world) p line :=
    r.1 = Ok false /\ fs r.2 = delete p f
    /\ last (out r.2) = Some (Entry FAIL [Lit "❌ "; Lit line]) in
  fails (test_xss_protection (gone "src/utils/validation.js"))
    "src/utils/validation.js" "validation.js not found"
  /\ fails (test_sql_injection_protection (gone "src/core/QueryEngine.js"))
       "src/core/QueryEngine.js" "QueryEngine.js not found"
  /\ fails (test_jwt_security P (gone "src/utils/jwt.js"))
       "src/utils/jwt.js" "jwt.js not found"
  /\ fails (test_cors_configuration (gone "src/core/Router.js"))
       "src/core/Router.js" "Router.js not found"
  /\ (test_routes (gone "src/core/Router.js")).1 = Raise FileNotFoundError.
Proof.
  cbv zeta.
  unfold test_xss_protection, test_sql_injection_protection,
    test_jwt_security, test_cors_configuration, test_routes.
  run_missing. rewrite !last_snoc. done.
Qed.

(* ================================================================== *)
(** * Where the steps write *)
(* ================================================================== *)

(** ** Changes confined to a set of paths *)

Lemma changes_only_keeps {A} R (m : M A) : keeps_fs m -> changes_only R m.
Proof. intros H w q _. by rewrite H. Qed.

Lemma changes_only_bind {A B} R (m : M A) (k : A -> M B) :
  changes_only R m -> (forall a, changes_only R (k a)) ->
  changes_only R (m ≫= k).
Proof.
  intros Hm Hk w q Hq. unfold mbind, M_bind. specialize (Hm w q Hq).
  destruct (m w) as [[a|e] w']; simpl in *; [|done].
  by rewrite (Hk a w' q Hq).
Qed.

Lemma changes_only_if {A} R (b : bool) (m1 m2 : M A) :
  changes_only R m1 -> changes_only R m2 ->
  changes_only R (if b then m1 else m2).
Proof. by destruct b. Qed.

Lemma changes_only_for_in {A S} R (l : list A) (body : A -> S -> M S) s :
  (forall x s, changes_only R (body x s)) -> changes_only R (for_in l body s).
Proof.
  intros Hb. revert s. induction l as [|x l IH]; intros s; simpl.
  - by apply changes_only_keeps, keeps_fs_ret.
  - apply changes_only_bind; [apply Hb | apply IH].
Qed.

Lemma changes_only_mkdir_chain (R : string -> Prop) (ds : list string) :
  (forall d, d ∈ ds -> R d) -> changes_only R (mkdir_chain ds).
Proof.
  induction ds as [|d ds IH]; intros Hds w q Hq; cbn [mkdir_chain]; [done|].
  assert (q <> d) as Hne by (intros ->; apply Hq, Hds; left).
  assert (forall d, d ∈ ds -> R d) as Hds' by (intros ? ?; apply Hds; by right).
  destruct (fs w !! d) as [[c|]|]; [done| |].
  - by apply IH.
  - rewrite (IH Hds' _ q Hq). cbn [fs set_fs]. by rewrite lookup_insert_ne.
Qed.

Lemma changes_only_write_text (R : string -> Prop) (p content : string) :
  R p -> changes_only R (write_text p content).
Proof.
  intros Hp w q Hq. assert (q <> p) as Hne by (by intros ->).
  unfold write_text.
  destruct (last (parents p)) as [d|];
    [destruct (fs w !! d) as [[c|]|]; [done| |done]|];
    destruct (fs w !! p) as [[c'|]|]; cbn [snd fs set_fs];
    by rewrite ?lookup_insert_ne.
Qed.

Lemma keeps_fs_raise {A} (e : exn) : keeps_fs (raise e : M A).
Proof. by intros w. Qed.

Lemma keeps_fs_getsize p : keeps_fs (os_path_getsize p).
Proof. intros w. unfold os_path_getsize. by destruct (fs w !! p) as [[c|]|]. Qed.

Lemma keeps_fs_rglob P : keeps_fs (rglob_src_js P).
Proof. by intros w. Qed.

Lemma parents_under_dist (rel d : string) :
  d ∈ parents ("dist/" +:+ rel) -> under "dist" d.
Proof.
  change (parents ("dist/" +:+ rel))
    with ("dist" :: parents_from "dist/" rel).
  intros [->|H]%elem_of_cons; [by left|]. right.
  apply parents_from_spec in H as [[t ->] _].
  apply prefix_true_iff. by exists t.
Qed.

Lemma target_under_dist (rel : string) : under "dist" ("dist/" +:+ rel).
Proof. right. apply prefix_true_iff. by exists rel. Qed.

(** Solving a goal [changes_only R m] along the structure of [m]. *)
Ltac confined :=
  repeat first
    [ apply changes_only_keeps;
      first [ apply keeps_fs_ret | apply keeps_fs_log
            | apply keeps_fs_os_path_exists | apply keeps_fs_read_text
            | apply keeps_fs_raise | apply keeps_fs_getsize
            | apply keeps_fs_rglob | apply keeps_fs_log_test ]
    | apply changes_only_bind; [|intros ?]
    | apply changes_only_if
    | apply changes_only_for_in; intros ? ? ].

Lemma bundle_one_confined p acc :
  changes_only (under "dist") (bundle_one p acc).
Proof.
  destruct acc as [[cf ec] ep]. unfold bundle_one, log_warning.
  cbv zeta. unfold relative_to_src, mkdir_parent. confined.
  - apply changes_only_mkdir_chain, parents_under_dist.
  - apply changes_only_write_text, target_under_dist.
Qed.

Lemma create_cdn_bundle_confined P :
  changes_only (under "dist") (create_cdn_bundle P).
Proof.
  unfold create_cdn_bundle, create_cdn_bundle_locals, makedirs,
    log_header, log_success, log_warning.
  confined.
  - apply changes_only_mkdir_chain. intros d Hd.
    change (parents "dist" ++ ["dist"]) with ["dist"] in Hd.
    apply list_elem_of_singleton in Hd as ->. by left.
  - apply bundle_one_confined.
  - match goal with
    | |- changes_only _ (match ?acc with _ => _ end) =>
        destruct acc as [[cf ec] ep]
    end.
    confined.
Qed.

(** ** Entries that stay *)

Lemma keeps_entries_refl f : keeps_entries f f.
Proof.
  intros q. unfold is_file. by destruct (f !! q) as [[c|]|].
Qed.

Lemma keeps_entries_trans f1 f2 f3 :
  keeps_entries f1 f2 -> keeps_entries f2 f3 -> keeps_entries f1 f3.
Proof.
  intros H12 H23 q. specialize (H12 q). specialize (H23 q).
  unfold is_file in *.
  destruct (f1 !! q) as [[c1|]|]; [|by rewrite H12 in H23|done].
  by destruct (f2 !! q) as [[c2|]|].
Qed.

Lemma never_removes_keeps {A} (m : M A) : keeps_fs m -> never_removes m.
Proof. intros H w. rewrite H. apply keeps_entries_refl. Qed.

Lemma never_removes_bind {A B} (m : M A) (k : A -> M B) :
  never_removes m -> (forall a, never_removes (k a)) ->
  never_removes (m ≫= k).
Proof.
  intros Hm Hk w. unfold mbind, M_bind. specialize (Hm w).
  destruct (m w) as [[a|e] w']; simpl in *; [|done].
  by apply (keeps_entries_trans _ (fs w')), Hk.
Qed.

Lemma never_removes_if {A} (b : bool) (m1 m2 : M A) :
  never_removes m1 -> never_removes m2 ->
  never_removes (if b then m1 else m2).
Proof. by destruct b. Qed.

Lemma never_removes_for_in {A S} (l : list A) (body : A -> S -> M S) s :
  (forall x s, never_removes (body x s)) -> never_removes (for_in l body s).
Proof.
  intros Hb. revert s. induction l as [|x l IH]; intros s; simpl.
  - by apply never_removes_keeps, keeps_fs_ret.
  - apply never_removes_bind; [apply Hb | apply IH].
Qed.

Lemma keeps_entries_insert_new f q n :
  f !! q = None -> keeps_entries f (<[q := n]> f).
Proof.
  intros Hq q'. unfold is_file. destruct (decide (q' = q)) as [->|Hne].
  - by rewrite Hq.
  - rewrite lookup_insert_ne by done. by destruct (f !! q') as [[c|]|].
Qed.

Lemma keeps_entries_insert_file f q c :
  is_dir f q = false -> keeps_entries f (<[q := File c]> f).
Proof.
  intros Hq q'. unfold is_file, is_dir in *.
  destruct (decide (q' = q)) as [->|Hne].
  - rewrite lookup_insert_eq. by destruct (f !! q) as [[c'|]|].
  - rewrite lookup_insert_ne by done. by destruct (f !! q') as [[c'|]|].
Qed.

Lemma never_removes_mkdir_chain (ds : list string) :
  never_removes (mkdir_chain ds).
Proof.
  induction ds as [|d ds IH]; intros w; cbn [mkdir_chain].
  - apply keeps_entries_refl.
  - destruct (fs w !! d) as [[c|]|] eqn:Hd.
    + apply keeps_entries_refl.
    + apply IH.
    + eapply keeps_entries_trans; [|apply IH]. cbn [fs set_fs].
      by apply keeps_entries_insert_new.
Qed.

Lemma never_removes_write_text (p content : string) :
  never_removes (write_text p content).
Proof.
  intros w. unfold write_text.
  destruct (last (parents p)) as [d|];
    [destruct (fs w !! d) as [[c|]|];
       [apply keeps_entries_refl| |apply keeps_entries_refl]|];
    destruct (fs w !! p) as [[c'|]|] eqn:Hp; cbn [snd fs set_fs];
    try apply keeps_entries_refl;
    apply keeps_entries_insert_file; unfold is_dir; by rewrite Hp.
Qed.

(** Solving a goal [never_removes m] along the structure of [m]. *)
Ltac staying :=
  repeat first
    [ apply never_removes_keeps;
      first [ apply keeps_fs_ret | apply keeps_fs_log
            | apply keeps_fs_os_path_exists | apply keeps_fs_read_text
            | apply keeps_fs_raise | apply keeps_fs_getsize
            | apply keeps_fs_rglob | apply keeps_fs_log_test ]
    | apply never_removes_mkdir_chain
    | apply never_removes_write_text
    | apply never_removes_bind; [|intros ?]
    | apply never_removes_if
    | apply never_removes_for_in; intros ? ? ].

Lemma bundle_one_never_removes p acc : never_removes (bundle_one p acc).
Proof.
  destruct acc as [[cf ec] ep]. unfold bundle_one, log_warning.
  cbv zeta. unfold relative_to_src, mkdir_parent. staying.
Qed.

Lemma create_cdn_bundle_never_removes P :
  never_removes (create_cdn_bundle P).
Proof.
  unfold create_cdn_bundle, create_cdn_bundle_locals, makedirs,
    log_header, log_success, log_warning.
  staying.
  - apply bundle_one_never_removes.
  - match goal with
    | |- never_removes (match ?acc with _ => _ end) =>
        destruct acc as [[cf ec] ep]
    end.
    staying.
Qed.

Lemma setup_cdn_auto_update_never_removes :
  never_removes setup_cdn_auto_update.
Proof.
  unfold setup_cdn_auto_update, makedirs, log_header, log_success. staying.
Qed.

Lemma keeps_entries_lookup f f' q n :
  keeps_entries f f' -> f !! q = Some n ->
  exists n', f' !! q = Some n' /\ (n = Dir <-> n' = Dir).
Proof.
  intros H Hq. specialize (H q). rewrite Hq in H. unfold is_file in H.
  destruct n as [c|].
  - destruct (f' !! q) as [[c'|]|]; try done. by exists (File c').
  - by exists Dir.
Qed.

Lemma keeps_fs_purge : keeps_fs purge_old_cdn_versions.
Proof. unfold purge_old_cdn_versions, log_header. keeps. Qed.

(** X5: the inventory, the five heuristic checks and the purge notice
    leave the tree exactly as they found it, whatever they return and also
    when they raise. *)
Theorem X5_checks_read_only (P : platform) (w : world) :
  fs (validate_source_files w).2 = fs w
  /\ fs (test_xss_protection w).2 = fs w
  /\ fs (test_sql_injection_protection w).2 = fs w
  /\ fs (test_jwt_security P w).2 = fs w
  /\ fs (test_cors_configuration w).2 = fs w
  /\ fs (test_routes w).2 = fs w
  /\ fs (purge_old_cdn_versions w).2 = fs w.
Proof.
  rewrite validate_source_files_unfold.
  repeat apply conj.
  - apply keeps_fs_validate.
  - apply keeps_fs_xss.
  - apply keeps_fs_sql.
  - apply keeps_fs_jwt.
  - apply keeps_fs_cors.
  - apply keeps_fs_routes.
  - apply keeps_fs_purge.
Qed.

(** X6: the bundle step changes nothing outside [dist]: a path that is not
    [dist] and does not start with "dist/" names after the step what it
    named before, whether the step returns or raises half way. *)
Theorem X6_bundle_writes_only_under_dist
    (P : platform) (w : world) (q : string) :
  q <> "dist" ->
  startswith "dist/" q = false ->
  fs (create_cdn_bundle P w).2 !! q = fs w !! q.
Proof.
  intros H1 H2. apply create_cdn_bundle_confined.
  intros [?|H]; [done|].
  change (startswith "dist/" q = true) in H. congruence.
Qed.

(** X7: the bundle step and the workflow step never remove an entry and
    never turn a regular file into a directory or a directory into a
    regular file, whether they return or raise.  In particular the bundle
    directory is not cleaned: what an earlier build left in [dist] stays. *)
Theorem X7_steps_never_remove
    (P : platform) (w : world) (q : string) (n : node) :
  fs w !! q = Some n ->
  (exists n', fs (create_cdn_bundle P w).2 !! q = Some n'
              /\ (n = Dir <-> n' = Dir))
  /\ (exists n', fs (setup_cdn_auto_update w).2 !! q = Some n'
                 /\ (n = Dir <-> n' = Dir)).
Proof.
  intros Hq. split.
  - exact (keeps_entries_lookup _ _ _ _
             (create_cdn_bundle_never_removes P w) Hq).
  - exact (keeps_entries_lookup _ _ _ _
             (setup_cdn_auto_update_never_removes w) Hq).
Qed.

(** X6 on [small_tree]: the source of the entry point is untouched. *)
Lemma X6_small_tree :
  fs (create_cdn_bundle quiet_platform small_tree).2 !! "src/index.js"
  = fs small_tree !! "src/index.js".
Proof.
  apply (X6_bundle_writes_only_under_dist quiet_platform small_tree
           "src/index.js"); [discriminate | reflexivity].
Defined.

(** X7 on [stale_tree]: the plugin template copied by an earlier build is
    still in [dist] after the bundle step, and after the workflow step. *)
Lemma X7_stale_tree :
  (exists n',
     fs (create_cdn_bundle quiet_platform stale_tree).2
       !! "dist/plugins/react.js" = Some n'
     /\ (File "old" = Dir <-> n' = Dir))
  /\ (exists n',
        fs (setup_cdn_auto_update stale_tree).2
          !! "dist/plugins/react.js" = Some n'
        /\ (File "old" = Dir <-> n' = Dir)).
Proof.
  apply (X7_steps_never_remove quiet_platform stale_tree
           "dist/plugins/react.js" (File "old")).
  reflexivity.
Defined.

(** ** The workflow file *)

Lemma setup_cdn_auto_update_confined :
  changes_only (under ".github") setup_cdn_auto_update.
Proof.
  unfold setup_cdn_auto_update, makedirs, log_header, log_success.
  change (parents ".github/workflows" ++ [".github/workflows"])
    with [".github"; ".github/workflows"].
  confined.
  - apply changes_only_mkdir_chain. intros d Hd.
    apply elem_of_cons in Hd as [->|Hd]; [by left|].
    apply list_elem_of_singleton in Hd as ->. by right.
  - apply changes_only_write_text. by right.
Qed.

Lemma setup_cdn_auto_update_run (w : world) :
  let f := fs w in
  let target := ".github/workflows/cdn-update.yml" in
  let r := setup_cdn_auto_update w in
  r.1 = (if is_file f ".github" then Raise NotADirectoryError
         else if is_file f ".github/workflows" then Raise FileExistsError
         else if is_dir f target then Raise IsADirectoryError
         else Ok true)
  /\ (r.1 = Ok true ->
      fs r.2 !! ".github" = Some Dir
      /\ fs r.2 !! ".github/workflows" = Some Dir
      /\ fs r.2 !! target = Some (File workflow)).
Proof.
  cbv zeta. unfold setup_cdn_auto_update, makedirs, log_header, log_success.
  change (parents ".github/workflows" ++ [".github/workflows"])
    with [".github"; ".github/workflows"].
  unfold mbind, M_bind, log, write_text, is_file, is_dir.
  change (last (parents ".github/workflows/cdn-update.yml"))
    with (Some ".github/workflows").
  cbn [mkdir_chain fs out set_fs nil_b].
  destruct (fs w !! ".github") as [[c1|]|] eqn:H1;
    destruct (fs w !! ".github/workflows") as [[c2|]|] eqn:H2;
    destruct (fs w !! ".github/workflows/cdn-update.yml") as [[c3|]|] eqn:H3;
    repeat first
      [ rewrite lookup_insert_eq
      | rewrite lookup_insert_ne by discriminate
      | rewrite H1 | rewrite H2 | rewrite H3
      | progress cbn [fs set_fs mret M_ret fst snd] ];
    (split; [reflexivity|]); try discriminate;
    intros _; repeat apply conj; try reflexivity; assumption.
Qed.

(** X8: the workflow step returns True exactly when neither [.github] nor
    [.github/workflows] is a regular file and the workflow path is not a
    directory; in every other case it raises, it never returns False.
    When it returns True both directories exist and the workflow path
    holds the workflow text, replacing what was there.  Whatever happens,
    it changes nothing outside [.github]. *)
Theorem X8_workflow_step (w : world) :
  let target := ".github/workflows/cdn-update.yml" in
  let r := setup_cdn_auto_update w in
  (r.1 = Ok true
   <-> is_file (fs w) ".github" = false
       /\ is_file (fs w) ".github/workflows" = false
       /\ is_dir (fs w) target = false)
  /\ r.1 <> Ok false
  /\ (r.1 = Ok true ->
      fs r.2 !! ".github" = Some Dir
      /\ fs r.2 !! ".github/workflows" = Some Dir
      /\ fs r.2 !! target = Some (File workflow))
  /\ (forall q, ~ under ".github" q -> fs r.2 !! q = fs w !! q).
Proof.
  cbv zeta. destruct (setup_cdn_auto_update_run w) as [Hr Hw].
  cbv zeta in Hr, Hw. repeat apply conj.
  - rewrite Hr. by repeat case_match.
  - intros (H1 & H2 & H3). by rewrite Hr, H1, H2, H3.
  - rewrite Hr. by repeat case_match.
  - exact Hw.
  - intros q Hq. by apply setup_cdn_auto_update_confined.
Qed.

(** ** The summary *)

Lemma print_results_run (l : list step) (w : world) :
  for_in (passed_pairs l)
    (fun '(step_name, result) _ =>
       let status := if (result : bool) then "✅" else "❌" in
       log [Lit status; Lit " "; Str step_name] OKBLUE) tt w
  = (Ok tt, add_lines (map tick_line l) w).
Proof.
  revert w. induction l as [|st l IH]; intros w; cbn [passed_pairs map for_in].
  - unfold add_lines. rewrite app_nil_r. by destruct w.
  - unfold mbind, M_bind, log at 1. fold (passed_pairs l). rewrite IH.
    unfold add_lines. cbn [fs out]. by rewrite <- app_assoc.
Qed.

Lemma run_steps_stop_world (l : list step) (acc : list (string * bool)) w :
  passing l w = None ->
  exists r, run_steps l acc w = (Ok (r, Some false), (run_steps l acc w).2).
Proof.
  intros Hp. pose proof (run_steps_results l acc w) as Hr.
  destruct (forallb snd (outcomes (executed l w) w)) eqn:Hall.
  - apply passing_outcomes in Hall as [? ?]. congruence.
  - destruct (run_steps l acc w) as [r w']. cbn [fst snd] in *. subst r.
    by eexists.
Qed.

Lemma main_of_passing (l : list step) (w wend : world) :
  passing l (banner w) = Some wend ->
  exists title a b c closing,
    length closing = 9
    /\ (main_of l w).2
       = add_lines
           ([title; Entry OKBLUE [a; Num (length l); b; Num (length l); c]]
            ++ map tick_line l ++ closing)
           (run_steps l [] (banner w)).2.
Proof.
  intros Hp. unfold main_of.
  unfold mbind at 1 2 3 4, M_bind at 1 2 3 4, log_header, log at 1 2 3 4.
  cbn [fs out app].
  replace (World (fs w) _) with (banner w).
  2:{ unfold banner, add_lines. by rewrite <- !app_assoc. }
  unfold mbind at 1, M_bind at 1.
  pose proof (run_steps_results l [] (banner w)) as Hr. cbn [app] in Hr.
  destruct (passing_executed _ _ _ Hp) as [He Ho].
  rewrite He, Ho in Hr.
  assert (forallb snd (passed_pairs l) = true) as Hall.
  { rewrite <- Ho, <- He at 1. apply passing_outcomes. by eexists. }
  rewrite Hall in Hr.
  destruct (run_steps l [] (banner w)) as [r w']. cbn [fst] in Hr. subst r.
  cbn [fst snd]. rewrite (filter_all_true _ Hall), Nat.eqb_refl.
  unfold mbind at 1 2, M_bind at 1 2, log_header, log at 1 2.
  unfold mbind at 1, M_bind at 1. rewrite print_results_run.
  unfold passed_pairs. rewrite length_map.
  unfold mbind, M_bind, log, add_lines. cbn [fs out fst snd mret M_ret].
  eexists _, _, _, _, _. split; [|f_equal].
  2:{ rewrite <- !app_assoc. cbn [app]. reflexivity. }
  reflexivity.
Qed.

Lemma main_of_stopped (l : list step) (w : world) :
  passing l (banner w) = None ->
  (main_of l w).2 = (run_steps l [] (banner w)).2.
Proof.
  intros Hp. unfold main_of.
  unfold mbind at 1 2 3 4, M_bind at 1 2 3 4, log_header, log at 1 2 3 4.
  cbn [fs out app].
  replace (World (fs w) _) with (banner w).
  2:{ unfold banner, add_lines. by rewrite <- !app_assoc. }
  unfold mbind at 1, M_bind at 1.
  destruct (run_steps_stop_world l [] (banner w) Hp) as [r ->].
  done.
Qed.

(** X9: [main] itself writes no file.  After a loop that stopped it prints
    nothing more: no summary follows the failure report, and the
    "Build Failed" summary is never printed.  After a loop in which all
    [n] steps passed it prints the summary title, a result line with the
    counts [n] and [n], one tick line for each step in declared order, and
    nine closing lines. *)
Theorem X9_summary_only_on_success (l : list step) (w : world) :
  let loop := run_steps l [] (banner w) in
  let m := main_of l w in
  fs m.2 = fs loop.2
  /\ match passing l (banner w) with
     | Some _ =>
         exists title a b c closing,
           out m.2
           = out loop.2
             ++ [title;
                 Entry OKBLUE [a; Num (length l); b; Num (length l); c]]
             ++ map tick_line l ++ closing
           /\ length closing = 9
     | None => m.2 = loop.2
     end.
Proof.
  cbv zeta. destruct (passing l (banner w)) as [wend|] eqn:Hp.
  - destruct (main_of_passing l w wend Hp)
      as (title & a & b & c & closing & Hlen & ->).
    split; [done|]. by exists title, a, b, c, closing.
  - by rewrite (main_of_stopped l w Hp).
Qed.
(** ** What a successful run has bundled *)

Lemma elem_of_src_js_paths (f : gmap string node) (p : string) :
  p ∈ src_js_paths f <-> is_src_js p = true /\ is_Some (f !! p).
Proof.
  unfold src_js_paths. rewrite list_elem_of_In, filter_In, <- list_elem_of_In.
  rewrite list_elem_of_fmap. split.
  - intros [([q n] & -> & Hq%elem_of_map_to_list) Hjs]. split; [done|].
    by exists n.
  - intros [Hjs [n Hn]]. split; [|done]. exists (p, n). split; [done|].
    by apply elem_of_map_to_list.
Qed.




(** ** GitHub and the CDN *)

Lemma validate_github_token_unset (S : shell) (w : world) :
  Publish.falsy (GITHUB_TOKEN S) = true ->
  Publish.validate_github_token S w
  = (Ok false,
     add_lines
       [Entry HEADER_BOLD
          [Lit "====="; Lit "Step 1: Validating GitHub Token"; Lit "====="];
        Entry FAIL
          [Lit "❌ "; Lit "GITHUB_TOKEN environment variable not set!"];
        Entry OKBLUE
          [Lit "Set it with: export GITHUB_TOKEN='your_token_here'"];
        Entry OKBLUE
          [Lit "Get token from: https://github.com/settings/tokens"]]
       w).
Proof.
  intros Hf. unfold Publish.validate_github_token. 
  unfold mbind at 1, M_bind at 1, log_header, log at 1. rewrite Hf.
  unfold mbind, M_bind, log_error, log, add_lines. cbn [fs out fst snd mret M_ret].
  by rewrite <- !app_assoc.
Qed.

Lemma answered_verdict (S : shell) (cmd : list string) (w : world)
    (key shown : string) :
  answered S cmd w key shown
  <-> match subprocess_run S cmd w with
      | (Ok (0, text), _) =>
          match json_in S key text, json_index S shown text with
          | Ok true, Ok _ => true
          | _, _ => false
          end
      | _ => false
      end = true.
Proof.
  unfold answered.
  destruct (subprocess_run S cmd w) as [[[[|code] text]|e] w1].
  - destruct (json_in S key text) as [[|]|e] eqn:Hin.
    + destruct (json_index S shown text) as [value|e] eqn:Hix.
      * split; [done|]. intros _. by exists text, w1, value.
      * split; [|done]. intros (? & ? & ? & [= <- <-] & _ & Hix').
        congruence.
    + split; [|done]. intros (? & ? & ? & [= <- <-] & Hin' & _).
      congruence.
    + split; [|done]. intros (? & ? & ? & [= <- <-] & Hin' & _).
      congruence.
  - split; [|done]. by intros (? & ? & ? & [=] & _).
  - split; [|done]. by intros (? & ? & ? & [=] & _).
Qed.

Lemma validate_github_token_set (S : shell) (w : world) :
  Publish.falsy (GITHUB_TOKEN S) = false ->
  (Publish.validate_github_token S w).1
  = Ok match subprocess_run S (curl_user S) (asking_user S w) with
       | (Ok (0, text), _) =>
           match json_in S "login" text, json_index S "login" text with
           | Ok true, Ok _ => true
           | _, _ => false
           end
       | _ => false
       end.
Proof.
  intros Hf. unfold Publish.validate_github_token.
  unfold mbind at 1, M_bind at 1, log_header, log at 1. rewrite Hf.
  unfold mbind at 1, M_bind at 1, log at 1. cbn [fs out].
  replace (World (fs w) _) with (asking_user S w).
  2:{ unfold asking_user, add_lines. by rewrite <- !app_assoc. }
  fold (curl_user S). unfold try_except, mbind at 1, M_bind at 1.
  destruct (subprocess_run S (curl_user S) (asking_user S w))
    as [[[[|code] text]|e] w1]; [|done|done].
  cbn [fst snd Nat.eqb].
  unfold mbind at 1 2, M_bind at 1 2, Publish.lift at 1.
  destruct (json_in S "login" text) as [[|]|e]; [|done|done].
  unfold mbind at 1, M_bind at 1, Publish.lift at 1.
  by destruct (json_index S "login" text) as [login|e].
Qed.

Lemma check_repo_exists_run (S : shell) (w : world) :
  (Publish.check_repo_exists S w).1
  = Ok match subprocess_run S (curl_repo S) (asking_repo w) with
       | (Ok (0, text), _) =>
           match json_in S "id" text, json_index S "full_name" text with
           | Ok true, Ok _ => true
           | _, _ => false
           end
       | _ => false
       end.
Proof.
  unfold Publish.check_repo_exists.
  unfold mbind at 1, M_bind at 1, log_header, log at 1.
  fold (curl_repo S). change (World (fs w) _) with (asking_repo w).
  unfold try_except, mbind at 1, M_bind at 1.
  destruct (subprocess_run S (curl_repo S) (asking_repo w))
    as [[[[|code] text]|e] w1]; [|done|done].
  cbn [fst snd Nat.eqb].
  unfold mbind at 1 2, M_bind at 1 2, Publish.lift at 1.
  destruct (json_in S "id" text) as [[|]|e]; [|done|done].
  unfold mbind at 1, M_bind at 1, Publish.lift at 1.
  by destruct (json_index S "full_name" text) as [name|e].
Qed.

(** X11: the token step never raises.  Without a token, unset or empty, it
    returns False and does the same whatever the shell: no command is
    run.  With a token it returns True exactly when [curl], asked for the
    user, returns code 0 and its output is JSON that holds a [login] which
    can be read; an exception of [curl] or of the JSON reader gives
    False. *)
Theorem X11_token_validation (S : shell) (w : world) :
  let r := Publish.validate_github_token S w in
  (exists b, r.1 = Ok b)
  /\ (Publish.falsy (GITHUB_TOKEN S) = true ->
      r.1 = Ok false
      /\ forall S', Publish.falsy (GITHUB_TOKEN S') = true ->
           Publish.validate_github_token S' w = r)
  /\ (r.1 = Ok true
      <-> Publish.falsy (GITHUB_TOKEN S) = false
          /\ answered S (curl_user S) (asking_user S w) "login" "login").
Proof.
  cbv zeta. destruct (Publish.falsy (GITHUB_TOKEN S)) eqn:Hf.
  - rewrite (validate_github_token_unset S w Hf). repeat apply conj.
    + by eexists.
    + intros _. split; [done|]. intros S' Hf'.
      by rewrite (validate_github_token_unset S' w Hf').
    + done.
    + by intros [[=] _].
  - rewrite (validate_github_token_set S w Hf), answered_verdict.
    repeat apply conj; [by eexists | done | |].
    + intros [= H]. by split.
    + intros [_ H]. by rewrite H.
Qed.

(** X12: the repository step never raises, and it asks GitHub whether or
    not a token is set.  It returns True exactly when [curl], asked for
    the repository, returns code 0 and its output is JSON that holds an
    [id] and a [full_name] which can be read. *)
Theorem X12_repository_check (S : shell) (w : world) :
  let r := Publish.check_repo_exists S w in
  (exists b, r.1 = Ok b)
  /\ (r.1 = Ok true
      <-> answered S (curl_repo S) (asking_repo w) "id" "full_name").
Proof.
  cbv zeta. rewrite check_repo_exists_run, answered_verdict.
  split; [by eexists|]. split; [by intros [= H] | by intros ->].
Qed.

Lemma verify_cdn_availability_run (S : shell) (w : world) :
  (Publish.verify_cdn_availability S w).1 = Ok true.
Proof.
  unfold Publish.verify_cdn_availability.
  unfold mbind at 1 2 3, M_bind at 1 2 3, log_header, log_warning at 1,
    log at 1 2 3.
  unfold try_except, mbind at 1, M_bind at 1.
  destruct (subprocess_run S _ _) as [[result|e] w1]; [|done].
  by destruct (str_in "200 OK" result.2 || str_in "200" result.2).
Qed.

Lemma passing_app (l1 l2 : list step) (w : world) :
  passing (l1 ++ l2) w = passing l1 w ≫= passing l2.
Proof.
  revert w. induction l1 as [|st l1 IH]; intros w; [done|].
  change ((st :: l1) ++ l2) with (st :: (l1 ++ l2)).
  rewrite !passing_cons. by destruct (outcome st w).
Qed.

Lemma script_passes (P : platform) (w : world) :
  (script P w).1 = Ok 0 <-> is_Some (passing (steps P) (banner w)).
Proof.
  rewrite script_run, passing_outcomes.
  destruct (forallb snd _); split; (done || intros [=]).
Qed.

(** X13: the CDN verification returns True whatever [curl] answers, and
    when [curl] raises; the purge step returns True as well.  Neither can
    fail a build. *)
Theorem X13_steps_that_cannot_fail (S : shell) (w : world) :
  (Publish.verify_cdn_availability S w).1 = Ok true
  /\ (purge_old_cdn_versions w).1 = Ok true.
Proof. split; [apply verify_cdn_availability_run | reflexivity]. Qed.

(** X14: with the script's own steps 1, 9, 12 and 13 run on a shell, the
    exit code is 0 exactly when the first twelve steps pass: what the CDN
    answers at step 13 does not change it. *)
Theorem X14_exit_code_ignores_cdn (order : list string -> list string)
    (findall : string -> nat) (S : shell) (w : world) :
  let P := Publish.platform_of order findall S in
  (script P w).1 = Ok 0
  <-> is_Some (passing (take 12 (steps P)) (banner w)).
Proof.
  cbv zeta. rewrite script_passes.
  set (P := Publish.platform_of order findall S).
  set (l := take 12 (steps P)).
  replace (steps P)
    with (l ++ [("CDN Verification", Publish.verify_cdn_availability S)])
    by reflexivity.
  clearbody l. rewrite passing_app.
  destruct (passing l (banner w)) as [w12|]; cbn [mbind option_bind].
  - cbn [passing snd].
    pose proof (verify_cdn_availability_run S w12) as Hv.
    destruct (Publish.verify_cdn_availability S w12) as [r w13].
    cbn [fst] in Hv. subst r. cbn [passing]. split; by eexists.
  - done.
Qed.

(** ** The git commands *)

Lemma commands_app (o1 o2 : list entry) :
  commands (o1 ++ o2) = commands o1 ++ commands o2.
Proof. apply omap_app. Qed.

Lemma command_of_echo (cmd : list string) :
  command_of (echo_line cmd) = Some cmd.
Proof.
  unfold command_of, echo_line. cbn [color message]. f_equal.
  induction cmd as [|s cmd IH]; [done|]. cbn. cbn in IH. by rewrite IH.
Qed.

Lemma git_operations_recording (token : option string)
    (rc : list string -> nat) (w : world) :
  let plan := git_plan (recording token rc)
                (bool_decide (is_Some (fs w !! ".git")))
                (rc ["git"; "remote"; "get-url"; "origin"] =? 0)%nat in
  exists lines,
    Publish.git_operations (recording token rc) w
    = (Ok (forallb (goes_on rc) plan), add_lines lines w)
    /\ commands lines = until_failure rc plan.
Proof.
  cbv zeta. unfold Publish.git_operations, git_plan, Publish.run_checked,
    Publish.try_except_called, os_path_exists, Publish.remote_url.
  unfold mbind, M_bind, log_header, log_success, log_error, log, raise,
    add_lines.
  cbn [recording subprocess_run GITHUB_TOKEN fs out fst snd mret M_ret].
  unfold add_lines. cbn [fs out].
  destruct (bool_decide (is_Some (fs w !! ".git")));
    cbn [negb app until_failure forallb goes_on fst snd orb];
    repeat match goal with
      | |- context [rc ?c] =>
          destruct (rc c);
          cbn [Nat.eqb negb app until_failure forallb goes_on fst snd orb
               andb Publish.is_called_process_error
               Publish.CalledProcessError String.eqb Ascii.eqb Bool.eqb
               fs out mret M_ret]
      end.
  all: (eexists; split;
        [ f_equal; rewrite <- ?app_assoc; cbn [app]; reflexivity
        | unfold commands; cbn [omap]; rewrite ?command_of_echo;
          reflexivity ]).
Qed.

(** X15: on a shell that answers each command with a return code and
    echoes it, step 12 runs the commands of its plan in order ([git init]
    only without a repository, then add, commit, a forced tag, the query
    for the remote, [git remote add] only when that query fails, and the
    two forced pushes) and stops after the first checked command whose
    code is not 0.  It returns True exactly when no checked command
    fails; the code of the query for the remote is never a failure.  The
    step itself writes no file. *)
Theorem X15_git_commands (token : option string) (rc : list string -> nat)
    (w : world) :
  let S := recording token rc in
  let r := Publish.git_operations S w in
  let plan := git_plan S (bool_decide (is_Some (fs w !! ".git")))
                (rc ["git"; "remote"; "get-url"; "origin"] =? 0)%nat in
  r.1 = Ok (forallb (goes_on rc) plan)
  /\ commands (out r.2) = commands (out w) ++ until_failure rc plan
  /\ fs r.2 = fs w.
Proof.
  cbv zeta.
  destruct (git_operations_recording token rc w) as (lines & -> & Hc).
  cbv zeta in Hc. cbn [fst snd add_lines fs out].
  split; [done|]. split; [|done]. by rewrite commands_app, Hc.
Qed.

Lemma git_operations_raise (S : shell) (w : world) (e : exn) :
  (Publish.git_operations S w).1 = Raise e ->
  Publish.is_called_process_error e = false.
Proof.
  unfold Publish.git_operations.
  unfold mbind at 1, M_bind at 1, log_header, log at 1.
  unfold Publish.try_except_called.
  match goal with
  | |- context [match ?body ?w0 with _ => _ end] =>
      destruct (body w0) as [[b|e'] w']
  end; [done|].
  destruct (Publish.is_called_process_error e') eqn:He'.
  - unfold mbind, M_bind, log_error, log. done.
  - cbn [fst]. by intros [= <-].
Qed.

(** X16: step 12 handles only the failure of a checked command: it never
    ends with that exception, it returns False instead, and any other
    exception leaves it.  So when no program can be started the exception
    of its first command leaves step 12, whereas steps 1 and 9 catch it
    and return False and step 13 catches it and returns True. *)
Theorem X16_git_exceptions (S : shell) (w : world) (e : exn) :
  (forall cmd w0, (subprocess_run S cmd w0).1 = Raise e) ->
  Publish.is_called_process_error e = false ->
  (Publish.git_operations S w).1 = Raise e
  /\ (forall S' w' e',
        (Publish.git_operations S' w').1 = Raise e' ->
        Publish.is_called_process_error e' = false)
  /\ (Publish.validate_github_token S w).1 = Ok false
  /\ (Publish.check_repo_exists S w).1 = Ok false
  /\ (Publish.verify_cdn_availability S w).1 = Ok true.
Proof.
  intros Hrun He. repeat apply conj.
  - unfold Publish.git_operations.
    unfold mbind at 1, M_bind at 1, log_header, log at 1.
    unfold Publish.try_except_called, os_path_exists.
    unfold mbind at 1, M_bind at 1. cbn [fs out].
    destruct (bool_decide _); cbn [negb];
      unfold Publish.run_checked; unfold mbind, M_bind, log, mret, M_ret;
      cbn [fs out];
      match goal with
      | |- context [subprocess_run S ?c ?w0] =>
          pose proof (Hrun c w0) as H;
          destruct (subprocess_run S c w0) as [r w1]
      end;
      cbn [fst] in H; subst r; by rewrite He.
  - intros S' w' e'. apply git_operations_raise.
  - destruct (Publish.falsy (GITHUB_TOKEN S)) eqn:Hf.
    + by rewrite (validate_github_token_unset S w Hf).
    + rewrite (validate_github_token_set S w Hf).
      pose proof (Hrun (curl_user S) (asking_user S w)) as H.
      destruct (subprocess_run S _ _) as [r w1]. cbn [fst] in H. by subst r.
  - rewrite check_repo_exists_run.
    pose proof (Hrun (curl_repo S) (asking_repo w)) as H.
    destruct (subprocess_run S _ _) as [r w1]. cbn [fst] in H. by subst r.
  - apply verify_cdn_availability_run.
Qed.

(** X16 where no program can be started. *)
Lemma X16_no_programs :
  (Publish.git_operations no_programs (tree [])).1 = Raise FileNotFoundError
  /\ (forall S' w' e',
        (Publish.git_operations S' w').1 = Raise e' ->
        Publish.is_called_process_error e' = false)
  /\ (Publish.validate_github_token no_programs (tree [])).1 = Ok false
  /\ (Publish.check_repo_exists no_programs (tree [])).1 = Ok false
  /\ (Publish.verify_cdn_availability no_programs (tree [])).1 = Ok true.
Proof.
  apply (X16_git_exceptions no_programs (tree []) FileNotFoundError).
  - intros cmd w0. reflexivity.
  - reflexivity.
Defined.

(** ** Running the bundle step again *)

(** A directory stays a directory through the copy loop. *)
Lemma copy_all_dirs l f f' d :
  copy_all l f = Some f' -> f !! d = Some Dir -> f' !! d = Some Dir.
Proof.
  revert f. induction l as [|x l IH]; intros f; cbn [copy_all].
  - by intros [= <-].
  - destruct (is_excluded x); [apply IH|].
    destruct (copy_ok x f) eqn:Hok; [|done]. intros H Hd.
    apply (IH _ H). apply copy_fs_keeps; [|done]. intros ->.
    unfold copy_ok in Hok. apply andb_true_iff in Hok as [_ Hok].
    unfold is_dir in Hok. by rewrite Hd in Hok.
Qed.

(** After the loop the directories above every copy exist. *)
Lemma copy_all_parents l f f' p d :
  copy_all l f = Some f' -> p ∈ included l -> d ∈ parents (dist_of p) ->
  f' !! d = Some Dir.
Proof.
  revert f. induction l as [|x l IH]; intros f; cbn [copy_all].
  - intros _ Hp. by apply elem_of_nil in Hp.
  - rewrite included_cons. destruct (is_excluded x) eqn:Hex; [apply IH|].
    destruct (copy_ok x f) eqn:Hok; [|done]. intros H Hp Hd.
    apply elem_of_cons in Hp as [->|Hp]; [|by apply (IH _ H)].
    apply (copy_all_dirs _ _ _ _ H).
    rewrite lookup_copy_fs, decide_False by (by apply parents_neq).
    apply lookup_add_dirs_member; [|done].
    unfold copy_ok in Hok. apply andb_true_iff in Hok as [Hok _].
    apply andb_true_iff in Hok as [Hok _].
    by apply andb_true_iff in Hok as [_ Hok].
Qed.

(** A tree that holds every copy with its directories is left as it is by
    the loop. *)
Lemma copy_all_fixed l f :
  (forall p, p ∈ included l ->
     startswith "src/" p = true
     /\ is_file f p = true
     /\ f !! dist_of p = Some (File (text_of f p))
     /\ (forall d, d ∈ parents (dist_of p) -> f !! d = Some Dir)) ->
  copy_all l f = Some f.
Proof.
  induction l as [|x l IH]; intros H; cbn [copy_all]; [done|].
  rewrite included_cons in H. destruct (is_excluded x) eqn:Hex; [by apply IH|].
  destruct (H x) as (Hsrc & Hfile & Hcopy & Hdirs); [left|].
  assert (copy_ok x f = true) as ->.
  { assert (no_file (parents (dist_of x)) f = true) as Hno.
    { unfold no_file. apply forallb_forall. intros d Hd%list_elem_of_In.
      unfold is_file. by rewrite (Hdirs d Hd). }
    assert (is_dir f (dist_of x) = false) as Hnd.
    { unfold is_dir. by rewrite Hcopy. }
    unfold copy_ok. by rewrite Hsrc, Hfile, Hno, Hnd. }
  assert (copy_fs x f = f) as ->.
  { apply map_eq. intros q. rewrite lookup_copy_fs. case_decide as Hq.
    - subst q. by rewrite Hcopy.
    - rewrite lookup_add_dirs. destruct (f !! q) eqn:Hl; [done|].
      case_decide as Hin; [|done]. rewrite (Hdirs q Hin) in Hl. done. }
  apply IH. intros p Hp. apply H. by right.
Qed.

Lemma NoDup_list_filter {A} (g : A -> bool) (l : list A) :
  NoDup l -> NoDup (List.filter g l).
Proof.
  induction 1 as [|x l Hx Hl IH]; cbn [List.filter]; [constructor|].
  destruct (g x); [|done]. constructor; [|done].
  rewrite list_elem_of_In, filter_In, <- list_elem_of_In. by intros [? _].
Qed.

(** Two trees that agree outside [dist] list the same scripts. *)
Lemma src_js_paths_agree (f g : gmap string node) :
  (forall q, first_char q <> Some "d"%char -> g !! q = f !! q) ->
  src_js_paths g ≡ₚ src_js_paths f.
Proof.
  intros Hagree. apply NoDup_Permutation.
  - unfold src_js_paths. apply NoDup_list_filter, NoDup_fst_map_to_list.
  - unfold src_js_paths. apply NoDup_list_filter, NoDup_fst_map_to_list.
  - intros p. rewrite !elem_of_src_js_paths.
    split; intros [Hjs Hp]; (split; [done|]);
      unfold is_src_js in Hjs; apply andb_true_iff in Hjs as [Hs _].
    + rewrite <- Hagree; [done|]. by rewrite (first_char_src _ Hs).
    + rewrite Hagree; [done|]. by rewrite (first_char_src _ Hs).
Qed.

Lemma with_dist_there (f : gmap string node) :
  f !! "dist" = Some Dir -> with_dist f = f.
Proof. intros H. unfold with_dist, add_dirs, add_dir. cbn. by rewrite H. Qed.

Lemma lookup_with_dist (f : gmap string node) :
  is_file f "dist" = false -> with_dist f !! "dist" = Some Dir.
Proof.
  intros H. apply lookup_add_dirs_member; [|left].
  unfold no_file. cbn. by rewrite H.
Qed.

(** The tree a completed bundle step leaves is one on which the step
    completes again without changing it. *)
Lemma bundle_of_again (P : platform) (f f' : gmap string node) (b : bundle) :
  lists_each_once P ->
  bundle_of P f = Some (b, f') ->
  exists b',
    bundle_of P f' = Some (b', f')
    /\ cdn_files b' ≡ₚ cdn_files b
    /\ excluded_paths b' ≡ₚ excluded_paths b
    /\ excluded_count b' = excluded_count b
    /\ total_size b' = total_size b.
Proof.
  intros HP Hb.
  destruct (bundle_of_inv _ _ _ _ Hb) as (Hcopy & Hcf & Hec & Hep & Hts).
  assert (is_file f "dist" = false) as Hdist.
  { unfold bundle_of in Hb. by destruct (is_file f "dist"). }
  set (l := src_files P f) in *.
  destruct (copy_all_spec _ _ _ Hcopy) as (Hspec & Hside & _).
  assert (f' !! "dist" = Some Dir) as Hd'.
  { apply (copy_all_dirs _ _ _ _ Hcopy). by apply lookup_with_dist. }
  assert (src_files P f' ≡ₚ l) as Hperm.
  { unfold l, src_files. rewrite (with_dist_there f' Hd').
    rewrite (HP (src_js_paths f')), (HP (src_js_paths (with_dist f))).
    by apply src_js_paths_agree. }
  assert (copy_all (src_files P f') f' = Some f') as Hagain.
  { rewrite (copy_all_perm _ _ _ Hperm). apply copy_all_fixed.
    intros p Hp. destruct (Hspec p Hp) as (Hsrc & [c Hc] & Hcopied).
    assert (f' !! p = with_dist f !! p) as Hsame.
    { apply Hside. by rewrite (first_char_src _ Hsrc). }
    split; [done|]. split; [|split].
    - unfold is_file. by rewrite Hsame, Hc.
    - rewrite Hcopied. unfold text_of. by rewrite Hsame.
    - intros d Hd. by apply (copy_all_parents _ _ _ p d Hcopy). }
  eexists. split.
  - unfold bundle_of. unfold is_file. rewrite Hd'.
    rewrite (with_dist_there f' Hd'), Hagain. reflexivity.
  - cbn [cdn_files excluded_paths excluded_count total_size].
    assert (map dist_of (included (src_files P f')) ≡ₚ cdn_files b) as Hfiles.
    { rewrite Hcf. by apply Permutation_map, included_perm. }
    split; [exact Hfiles|]. split; [|split].
    + rewrite Hep. by apply excluded_perm.
    + rewrite Hec. apply Permutation_length. by apply excluded_perm.
    + rewrite Hts. apply sum_list_with_Permutation_proper.
      by apply Permutation_map.
Qed.

(** X17: on a platform that lists every directory entry once, running the
    bundle step again on the tree it left completes and changes no file:
    every copy is rewritten with the text it already holds.  The second
    bundle lists the same copies, reports the same excluded paths and has
    the same total size. *)
Theorem X17_bundle_step_twice (P : platform) (w : world) (b : bundle) :
  lists_each_once P ->
  (create_cdn_bundle_locals P w).1 = Ok b ->
  let w' := (create_cdn_bundle_locals P w).2 in
  exists b',
    (create_cdn_bundle_locals P w').1 = Ok b'
    /\ fs (create_cdn_bundle_locals P w').2 = fs w'
    /\ cdn_files b' ≡ₚ cdn_files b
    /\ excluded_paths b' ≡ₚ excluded_paths b
    /\ excluded_count b' = excluded_count b
    /\ total_size b' = total_size b.
Proof.
  intros HP Hrun. cbv zeta.
  destruct (create_cdn_bundle_locals_inv _ _ _ Hrun) as (f' & Hb & ->).
  cbn [snd fs].
  destruct (bundle_of_again P _ _ _ HP Hb)
    as (b' & Hb' & Hcf & Hep & Hec & Hts).
  exists b'.
  rewrite (create_cdn_bundle_locals_ok P (World f' _) b' f') by exact Hb'.
  cbn [fst snd fs]. repeat apply conj; (reflexivity || assumption).
Qed.

(** X17 on [small_tree]. *)
Lemma X17_small_tree :
  let w' := (create_cdn_bundle_locals quiet_platform small_tree).2 in
  exists b',
    (create_cdn_bundle_locals quiet_platform w').1 = Ok b'
    /\ fs (create_cdn_bundle_locals quiet_platform w').2 = fs w'
    /\ cdn_files b'
       ≡ₚ ["dist/core/Router.js"; "dist/utils/jwt.js"; "dist/index.js"]
    /\ excluded_paths b' ≡ₚ ["src/plugins/vue.js"; "src/plugins/react.js"]
    /\ excluded_count b' = 2
    /\ total_size b' = 46.
Proof.
  apply (X17_bundle_step_twice quiet_platform small_tree
           (Bundle
              ["dist/core/Router.js"; "dist/utils/jwt.js"; "dist/index.js"]
              2 ["src/plugins/vue.js"; "src/plugins/react.js"] 46)).
  - exact quiet_lists_each_once.
  - vm_compute. reflexivity.
Defined.
(** ** A failed check *)

Lemma run_steps_keeps_fs (l : list step) acc w :
  (forall st, st ∈ l -> keeps_fs st.2) ->
  fs (run_steps l acc w).2 = fs w.
Proof.
  revert acc w. induction l as [|st l IH]; intros acc w Hl; [done|].
  assert (fs (after_step st w) = fs w) as Hst by (apply Hl; left).
  rewrite run_steps_cons. destruct (outcome st w).
  - rewrite IH; [done|]. intros st' Hst'. apply Hl. by right.
  - done.
Qed.

Lemma run_steps_stops_in_prefix (pre rest : list step) acc w :
  passing pre w = None ->
  run_steps (pre ++ rest) acc w = run_steps pre acc w.
Proof.
  revert acc w. induction pre as [|st pre IH]; intros acc w; [done|].
  change ((st :: pre) ++ rest) with (st :: (pre ++ rest)).
  rewrite !run_steps_cons, passing_cons.
  destruct (outcome st w); [apply IH | done].
Qed.

Lemma script_world (P : platform) (w : world) :
  (script P w).2 = (main_of (steps P) w).2.
Proof.
  unfold script, main, mbind, M_bind.
  by destruct (main_of (steps P) w) as [[[results b]|e] w'].
Qed.

Lemma main_of_stopped_in_prefix (l : list step) (n : nat) (w : world) :
  passing (take n l) (banner w) = None ->
  (main_of l w).2 = (run_steps (take n l) [] (banner w)).2.
Proof.
  intros Hp. rewrite main_of_stopped.
  - rewrite <- (take_drop n l) at 1. by rewrite run_steps_stops_in_prefix.
  - rewrite <- (take_drop n l), passing_app, Hp. done.
Qed.

Lemma checks_keep (P : platform) (st : step) :
  st ∈ drop 1 (take 7 (steps P)) -> keeps_fs st.2.
Proof.
  unfold steps. cbn [take drop]. intros H.
  repeat (apply elem_of_cons in H as [->|H];
          [first [ apply keeps_fs_validate | apply keeps_fs_xss
                 | apply keeps_fs_sql | apply keeps_fs_jwt
                 | apply keeps_fs_cors | apply keeps_fs_routes ]|]).
  by apply elem_of_nil in H.
Qed.

(** X18: when the token step passes and one of the six steps after it, the
    inventory or a heuristic check, does not, the script exits with code 1
    and the tree is the one the token step left: nothing is bundled, no
    workflow file is written, and no later step is run. *)
Theorem X18_failed_check_writes_nothing (P : platform) (w w1 : world) :
  passing (take 1 (steps P)) (banner w) = Some w1 ->
  passing (take 7 (steps P)) (banner w) = None ->
  (script P w).1 = Ok 1
  /\ fs (script P w).2 = fs w1.
Proof.
  intros H1 H7. split.
  - pose proof (script_run P w) as Hr. cbv zeta in Hr.
    destruct (forallb snd _) eqn:Hall; [|exact Hr].
    apply passing_outcomes in Hall as [wend Hend].
    rewrite <- (take_drop 7 (steps P)), passing_app, H7 in Hend. done.
  - rewrite script_world, (main_of_stopped_in_prefix _ 7) by exact H7.
    rewrite <- (take_drop 1 (take 7 (steps P))).
    rewrite take_take. change (1 `min` 7) with 1.
    rewrite (run_steps_passing _ _ _ _ _ H1).
    apply run_steps_keeps_fs, checks_keep.
Qed.

(** X18 on [small_tree], where the inventory fails. *)
Lemma X18_small_tree :
  (script quiet_platform small_tree).1 = Ok 1
  /\ fs (script quiet_platform small_tree).2 = fs (banner small_tree).
Proof.
  apply (X18_failed_check_writes_nothing quiet_platform small_tree
           (banner small_tree)).
  - reflexivity.
  - vm_compute. reflexivity.
Defined.
